(** * The watsonx / Elasticsearch / LangChain question-answering notebook

    A shallow embedding of [Langchain-lab-notebook.ipynb] and of the OpenAPI
    document of the [/query] endpoint.

    The notebook is a straight-line script over three external collaborators:
    the sentence-embedding model, the Elasticsearch cluster and the hosted
    language model.  The cluster is modelled as a finite map from index names
    to indices, an index as a finite map from document ids to documents; the
    two model providers are opaque fallible functions gathered in the record
    [Externals].  Every call that leaves the notebook is recorded in a trace,
    so that "which provider was called, with what, and in which order" can be
    stated.  Vector components, which are floats in Python, are rationals
    here: only their order is used. *)

From Stdlib Require Import Ascii String QArith Sorted.
From stdpp Require Import gmap strings list fin_maps pretty sorting.

Set Default Proof Using "Type".
Set Warnings "-register-all".
Local Open Scope string_scope.
Local Open Scope list_scope.
Local Open Scope Z_scope.

(* ===================================================================== *)
(** ** Python values used by the notebook                                 *)
(* ===================================================================== *)

(** The line feed of the Python literal ["\n"]. *)
Definition newline : string := String "010"%char EmptyString.

(** [str(i)] on a Python [int]: decimal digits, with a leading minus sign for
    negative numbers. *)
Definition str (i : Z) : string := pretty i.

(** [random.randint(a, b)] is [a + randbelow(b - a + 1)]; [draw] is the raw
    output of the generator for this call, reduced into the range. *)
Definition randint (a b : Z) (draw : Z) : Z := a + draw `mod` (b - a + 1).

(** [sep.join(parts)]. *)
Fixpoint join (sep : string) (parts : list string) : string :=
  match parts with
  | [] => ""
  | [s] => s
  | s :: rest => s +:+ sep +:+ join sep rest
  end.

(** JSON values, as carried by HTTP bodies. *)
Inductive json : Type :=
  | JNull
  | JBool (b : bool)
  | JInt (n : Z)
  | JStr (s : string)
  | JArr (items : list json)
  | JObj (fields : list (string * json)).

(** [obj.get(key)] on the fields of a JSON object. *)
Fixpoint json_get (key : string) (fields : list (string * json)) : option json :=
  match fields with
  | [] => None
  | (k, v) :: rest => if String.eqb k key then Some v else json_get key rest
  end.

(* ===================================================================== *)
(** ** Data model                                                         *)
(* ===================================================================== *)

(** A row of [knowledge_base/psgs.tsv]: the columns [id], [title], [text]. *)
Record Passage := { id : Z; title : string; text : string }.

(** The [metadata] dictionary [{'title': title, 'id': doc_id}]. *)
Record Metadata := { meta_title : string; meta_id : Z }.

Definition vector := list Q.

(** The [_source] of a document held by an index: the fields [text], [vector]
    and [metadata]; its [_id] is the key under which the index holds it. *)
Record IndexedDocument :=
  { es_text : string; es_vector : vector; es_metadata : Metadata }.

(** LangChain's [Document], the schema [Document] of the OpenAPI file. *)
Record Document :=
  { page_content : string; metadata : Metadata; type : string }.

(** The dictionary returned by [qa], the schema [QueryResponse]. *)
Record QueryResponse :=
  { query : string; result : string; source_documents : list Document }.

(** Cell 22:
    [documents['indextext'] = documents['title'].astype(str) + "\n" + documents['text']]. *)
Definition indextext (p : Passage) : string :=
  title p +:+ newline +:+ text p.

(* ===================================================================== *)
(** ** Generation parameters (cell 29)                                    *)
(* ===================================================================== *)

Inductive GenParams := DECODING_METHOD | MIN_NEW_TOKENS | MAX_NEW_TOKENS.

Inductive pyval := PyStr (s : string) | PyInt (n : Z).

#[global] Instance GenParams_eq_dec : EqDecision GenParams.
Proof. solve_decision. Defined.
#[global] Instance pyval_eq_dec : EqDecision pyval.
Proof. solve_decision. Defined.

(** A dict literal, in insertion order. *)
Definition dict := list (GenParams * pyval).

Fixpoint dict_get (k : GenParams) (d : dict) : option pyval :=
  match d with
  | [] => None
  | (k', v) :: rest => if decide (k' = k) then Some v else dict_get k rest
  end.

Definition parameters : dict :=
  [ (DECODING_METHOD, PyStr "greedy");
    (MIN_NEW_TOKENS, PyInt 1);
    (MAX_NEW_TOKENS, PyInt 50) ].

(** Cell 27: [model_id = ModelTypes.GRANITE_13B_INSTRUCT_V2]. *)
Inductive ModelTypes := GRANITE_13B_INSTRUCT_V2.

(** Cell 31: the [WatsonxLLM] object (the credentials are left out). *)
Record WatsonxLLM := { model_id : ModelTypes; params : dict }.

Definition watsonx_granite : WatsonxLLM :=
  {| model_id := GRANITE_13B_INSTRUCT_V2; params := parameters |}.

(** Cell 24: [emb_func = SentenceTransformerEmbeddings(model_name="all-MiniLM-L6-v2")]. *)
Record SentenceTransformerEmbeddings := { model_name : string }.

Definition emb_func : SentenceTransformerEmbeddings :=
  {| model_name := "all-MiniLM-L6-v2" |}.

(* ===================================================================== *)
(** ** The world outside the notebook                                     *)
(* ===================================================================== *)

(** An Elasticsearch index holds documents under their [_id]; the cluster
    holds indices under their names. *)
Abbreviation Index := (gmap string IndexedDocument).
Abbreviation Cluster := (gmap string (gmap string IndexedDocument)).

(** One search hit: [_id], [_score] and [_source]. *)
Record Hit := { hit_id : string; hit_score : Q; hit_source : IndexedDocument }.

(** The calls that leave the notebook, in the order they are made. *)
Inductive Call :=
  | EmbedDocuments (model : string) (texts : list string)
  | EmbedQuery (model : string) (q : string)
  | Generate (model : ModelTypes) (prms : dict) (prompt : string)
  | EsIndicesExists (index : string)
  | EsIndicesDelete (index : string)
  | EsIndicesCreate (index : string)
  | EsBulk (index : string) (requests : list (string * IndexedDocument))
  | EsCount (index : string)
  | EsSearch (index : string) (query_vector : vector) (k : nat).

(** The calls to the three providers of the query pipeline: embedding,
    retrieval and generation. *)
Definition is_provider_call (c : Call) : bool :=
  match c with
  | EmbedDocuments _ _ | EmbedQuery _ _ | Generate _ _ _ | EsSearch _ _ _ => true
  | _ => false
  end.

Definition is_embedding_call (c : Call) : bool :=
  match c with
  | EmbedDocuments _ _ | EmbedQuery _ _ => true
  | _ => false
  end.

Definition is_generate_call (c : Call) : bool :=
  match c with
  | Generate _ _ _ => true
  | _ => false
  end.

(** A Python exception is an [Err] carrying its message. *)
Inductive Result (A : Type) : Type :=
  | Ok (a : A)
  | Err (detail : string).
Arguments Ok {A} a.
Arguments Err {A} detail.

(** Notebook code runs against the cluster, may raise, and leaves a trace of
    calls.  A raised exception keeps the cluster as it was when raised. *)
Definition M (A : Type) : Type := Cluster → Result A * Cluster * list Call.

Definition ret {A} (a : A) : M A := λ es, (Ok a, es, []).

Definition bind {A B} (m : M A) (f : A → M B) : M B := λ es,
  match m es with
  | (Ok a, es1, t1) =>
      match f a es1 with
      | (r, es2, t2) => (r, es2, t1 ++ t2)
      end
  | (Err d, es1, t1) => (Err d, es1, t1)
  end.

Definition lift {A} (r : Result A) : M A := λ es, (r, es, []).

Definition call (c : Call) : M unit := λ es, (Ok tt, es, [c]).

Declare Scope nb_scope.
Delimit Scope nb_scope with nb.
Notation "'do' x <- m ; k" := (bind m (λ x, k))
  (at level 10, x name, m at level 100, k at level 200) : nb_scope.
Notation "m ;; k" := (bind m (λ _, k))
  (at level 100, k at level 200, right associativity) : nb_scope.
Local Open Scope nb_scope.

Definition outcome {A} (x : Result A * Cluster * list Call) : Result A := x.1.1.
Definition cluster_of {A} (x : Result A * Cluster * list Call) : Cluster := x.1.2.
Definition trace {A} (x : Result A * Cluster * list Call) : list Call := x.2.

(** [for x in xs: f(x)], stopping at the first exception. *)
Fixpoint traverse {A B} (f : A → Result B) (xs : list A) : Result (list B) :=
  match xs with
  | [] => Ok []
  | x :: rest =>
      match f x with
      | Err d => Err d
      | Ok y =>
          match traverse f rest with
          | Err d => Err d
          | Ok ys => Ok (y :: ys)
          end
      end
  end.

Fixpoint for_each {A B} (f : A → M B) (xs : list A) : M (list B) :=
  match xs with
  | [] => ret []
  | x :: rest => do y <- f x; do ys <- for_each f rest; ret (y :: ys)
  end.

(* ===================================================================== *)
(** ** The Elasticsearch client                                           *)
(* ===================================================================== *)

(** The Vector Store is an external service, absent from the repository; the
    notebook reaches it through the calls below.  Each is modelled after the
    contract the specification gives for the store: it keeps (vector, text,
    metadata) under the id of each document, an upsert replaces what the id
    held before, and a search answers the [k] documents of highest
    dot-product similarity, best first. *)

(** Modelled from the spec: the error of a request that names an index the
    store does not hold. *)
Definition index_not_found : string := "index_not_found_exception".

(** Modelled from the spec: [es_connection.indices.exists(index=...)]. *)
Definition indices_exists (index : string) : M bool := λ es,
  (Ok (bool_decide (is_Some (es !! index))), es, [EsIndicesExists index]).

(** Modelled from the spec: [es_connection.indices.delete(index=...)] drops
    the index generation of that name. *)
Definition indices_delete (index : string) : M unit := λ es,
  match es !! index with
  | Some _ => (Ok tt, delete index es, [EsIndicesDelete index])
  | None => (Err index_not_found, es, [EsIndicesDelete index])
  end.

(** Modelled from the spec: [indices.create]; a new index generation holds
    no document. *)
Definition indices_create (index : string) : M unit := λ es,
  (Ok tt, <[index := ∅]> es, [EsIndicesCreate index]).

(** Modelled from the spec: the store's [upsert], keyed by the document id;
    what the id held before is replaced. *)
Definition upsert (idx : Index) (request : string * IndexedDocument) : Index :=
  <[request.1 := request.2]> idx.

(** Modelled from the spec: one bulk request of upserts, applied in order. *)
Definition bulk (index : string) (requests : list (string * IndexedDocument)) : M unit :=
  λ es,
  (Ok tt, <[index := foldl upsert (default ∅ (es !! index)) requests]> es,
   [EsBulk index requests]).

(** Modelled from the spec: [es_connection.count(index=...)["count"]], the
    number of documents the index holds. *)
Definition count (index : string) : M nat := λ es,
  match es !! index with
  | Some idx => (Ok (size idx), es, [EsCount index])
  | None => (Err index_not_found, es, [EsCount index])
  end.

(** Modelled from the spec: the store's similarity, the dot product. *)
Fixpoint dot (u v : vector) : Q :=
  match u, v with
  | x :: u', y :: v' => Qplus (Qmult x y) (dot u' v')
  | _, _ => 0%Q
  end.

(** Modelled from the spec: the store's ranking of the hits, highest score
    first (as an insertion sort). *)
Fixpoint insert_hit (h : Hit) (hs : list Hit) : list Hit :=
  match hs with
  | [] => [h]
  | h' :: rest =>
      if Qle_bool (hit_score h') (hit_score h) then h :: hs
      else h' :: insert_hit h rest
  end.

(** Modelled from the spec: the hits in ranked order. *)
Definition rank (hs : list Hit) : list Hit := foldr insert_hit [] hs.

(** Modelled from the spec: a document of the index as a hit, scored against
    the query vector. *)
Definition score_hit (query_vector : vector) (entry : string * IndexedDocument) : Hit :=
  {| hit_id := entry.1;
     hit_score := dot query_vector (es_vector entry.2);
     hit_source := entry.2 |}.

(** Modelled from the spec: [search(queryVector, k)], the [k] best hits. *)
Definition knn (idx : Index) (query_vector : vector) (k : nat) : list Hit :=
  take k (rank (score_hit query_vector <$> map_to_list idx)).

(** [h1] may stand before [h2] in a ranking: its score is at least as high. *)
Definition outranks (h1 h2 : Hit) : Prop := Qle (hit_score h2) (hit_score h1).

(** [h] is a document of the index, scored by its dot product with the query
    vector. *)
Definition hit_of_index (idx : Index) (query_vector : vector) (h : Hit) : Prop :=
  idx !! hit_id h = Some (hit_source h)
  ∧ hit_score h = dot query_vector (es_vector (hit_source h)).

(** Modelled from the spec: the search request on a named index, with
    [dot_product] similarity. *)
Definition search (index : string) (query_vector : vector) (k : nat) : M (list Hit) :=
  λ es,
  match es !! index with
  | Some idx => (Ok (knn idx query_vector k), es, [EsSearch index query_vector k])
  | None => (Err index_not_found, es, [EsSearch index query_vector k])
  end.

(* ===================================================================== *)
(** ** The model providers and the LangChain objects                      *)
(* ===================================================================== *)

(** What the notebook takes from outside and the repository does not define:
    the sentence-embedding model, the hosted language model, and three
    constants of LangChain (the prompt of the "stuff" chain, given the
    context and the question; the separator put between documents in the
    context; the number [k] of documents a retriever asks for by default). *)
Record Externals := {
  encode : string → string → Result vector;
  generate : ModelTypes → dict → string → Result string;
  stuff_prompt : string → string → string;
  document_separator : string;
  default_k : nat
}.

(** [ElasticsearchStore(es_connection=..., index_name=..., embedding=...,
    strategy=ApproxRetrievalStrategy(), distance_strategy="DOT_PRODUCT")];
    the connection is the cluster the code runs against, the retrieval
    strategy is left out. *)
Record ElasticsearchStore := {
  index_name : string;
  embedding : SentenceTransformerEmbeddings;
  distance_strategy : string
}.

(** [knowledge_base.as_retriever()]. *)
Record VectorStoreRetriever := { vectorstore : ElasticsearchStore; search_k : nat }.

(** [RetrievalQA.from_chain_type(llm=..., chain_type="stuff", retriever=...,
    return_source_documents=True)]. *)
Record RetrievalQA := {
  llm : WatsonxLLM;
  chain_type : string;
  retriever : VectorStoreRetriever;
  return_source_documents : bool
}.

(* ===================================================================== *)
(** ** The notebook                                                       *)
(* ===================================================================== *)

Section Notebook.
Context (ext : Externals).

(** Modelled from the spec: [emb.embed_documents(texts)], the Embedding
    Provider asked for a batch of texts in one call. *)
Definition embed_documents (emb : SentenceTransformerEmbeddings)
    (texts : list string) : M (list vector) :=
  call (EmbedDocuments (model_name emb) texts);;
  lift (traverse (encode ext (model_name emb)) texts).

(** Modelled from the spec: [emb.embed_query(text)], the Embedding Provider
    asked for one text. *)
Definition embed_query (emb : SentenceTransformerEmbeddings) (q : string) : M vector :=
  call (EmbedQuery (model_name emb) q);;
  lift (encode ext (model_name emb) q).

(** Modelled from the spec: the index is created by [add_texts] when the
    store does not hold it yet. *)
Definition create_index_if_not_exists (index : string) : M unit :=
  do found <- indices_exists index;
  if found then ret tt else indices_create index.

(** Modelled from the spec: the upserts of [add_texts]; the i-th carries
    [ids[i]], [texts[i]], the i-th embedding and [metadatas[i]]. *)
Fixpoint index_requests (ids texts : list string) (embeddings : list vector)
    (metadatas : list Metadata) : list (string * IndexedDocument) :=
  match ids, texts, embeddings, metadatas with
  | i :: ids', t :: texts', e :: embeddings', m :: metadatas' =>
      (i, {| es_text := t; es_vector := e; es_metadata := m |})
      :: index_requests ids' texts' embeddings' metadatas'
  | _, _, _, _ => []
  end.

(** Modelled from the spec: [knowledge_base.add_texts(texts=...,
    metadatas=..., ids=...)] is LangChain's, not the repository's.  After the
    indexing pipeline of the specification: the texts are embedded with the
    embedding function of the store, the index is created when it is
    missing, and one document per text is upserted under the id given for
    it. *)
Definition add_texts (kb : ElasticsearchStore) (texts : list string)
    (metadatas : list Metadata) (ids : list string) : M (list string) :=
  do embeddings <- embed_documents (embedding kb) texts;
  create_index_if_not_exists (index_name kb);;
  bulk (index_name kb) (index_requests ids texts embeddings metadatas);;
  ret ids.

(** Cell 37: [indexName = f"lab-langchain-test-{random.randint(0,2000)}"]. *)
Definition indexName (draw : Z) : string :=
  "lab-langchain-test-" +:+ str (randint 0 2000 draw).

(** Cell 38. *)
Definition knowledge_base (draw : Z) : ElasticsearchStore :=
  {| index_name := indexName draw;
     embedding := emb_func;
     distance_strategy := "DOT_PRODUCT" |}.

Definition metadata_of (p : Passage) : Metadata :=
  {| meta_title := title p; meta_id := id p |}.

(** Cell 40: drop the index when it exists, then embed and index the
    documents. *)
Definition index_documents (draw : Z) (documents : list Passage) : M (list string) :=
  do found <- indices_exists (indexName draw);
  (if found then indices_delete (indexName draw) else ret tt);;
  add_texts (knowledge_base draw)
    (indextext <$> documents)
    (metadata_of <$> documents)
    ((λ p, str (id p)) <$> documents).

(** What cell 40 asks the index to hold for the passage [p] embedded as [v]. *)
Definition indexed_document (p : Passage) (v : vector) : string * IndexedDocument :=
  (str (id p),
   {| es_text := title p +:+ newline +:+ text p;
      es_vector := v;
      es_metadata := {| meta_title := title p; meta_id := id p |} |}).

(** Cell 44: [doc_count = es_connection.count(index=indexName)["count"]]. *)
Definition doc_count (draw : Z) : M nat := count (indexName draw).

(** Modelled from the spec: [knowledge_base.as_retriever()] is LangChain's;
    the retriever keeps the store and asks for the default number of
    documents. *)
Definition as_retriever (kb : ElasticsearchStore) : VectorStoreRetriever :=
  {| vectorstore := kb; search_k := default_k ext |}.

(** Modelled from the spec: a retrieved document as the [Document] returned
    alongside the answer. *)
Definition document_of_hit (h : Hit) : Document :=
  {| page_content := es_text (hit_source h);
     metadata := es_metadata (hit_source h);
     type := "Document" |}.

(** Modelled from the spec: steps 1 and 2 of the query pipeline, done by
    LangChain's retriever.  The question is embedded with the embedding
    function of the store, and the store is asked for the [k] most similar
    documents. *)
Definition get_relevant_documents (r : VectorStoreRetriever) (q : string)
    : M (list Document) :=
  do qv <- embed_query (embedding (vectorstore r)) q;
  do hits <- search (index_name (vectorstore r)) qv (search_k r);
  ret (document_of_hit <$> hits).

(** Modelled from the spec: step 4 of the query pipeline, the Language Model
    Provider called with the prompt and the parameters the [WatsonxLLM]
    object was built with. *)
Definition llm_call (l : WatsonxLLM) (prompt : string) : M string :=
  call (Generate (model_id l) (params l) prompt);;
  lift (generate ext (model_id l) (params l) prompt).

(** Modelled from the spec: the context of the "stuff" chain, the retrieved
    texts in ranked order. *)
Definition context_of (docs : list Document) : string :=
  join (document_separator ext) (page_content <$> docs).

(** Cell 52. *)
Definition qa (draw : Z) : RetrievalQA :=
  {| llm := watsonx_granite;
     chain_type := "stuff";
     retriever := as_retriever (knowledge_base draw);
     return_source_documents := true |}.

(** Modelled from the spec: [chain({"query": question})] of cell 53 runs
    LangChain's [RetrievalQA], not the repository's code.  After the query
    pipeline of the specification: retrieve, build the prompt from the
    retrieved texts and the question, generate, and return the original
    query, the generated text and the retrieved documents. *)
Definition run_chain (chain : RetrievalQA) (question : string) : M QueryResponse :=
  do docs <- get_relevant_documents (retriever chain) question;
  do answer <- llm_call (llm chain) (stuff_prompt ext (context_of docs) question);
  ret {| query := question;
         result := answer;
         source_documents := if return_source_documents chain then docs else [] |}.

(** The indexing pipeline, [index(passages) -> count indexed]: cells 40 and 44. *)
Definition indexing_pipeline (draw : Z) (documents : list Passage) : M nat :=
  index_documents draw documents;;
  doc_count draw.

(** Cells 37 to 53 in one run: index the documents, count them, answer the
    questions. *)
Definition notebook (draw : Z) (documents : list Passage) (questions : list string)
    : M (nat * list QueryResponse) :=
  index_documents draw documents;;
  do n <- doc_count draw;
  do results <- for_each (run_chain (qa draw)) questions;
  ret (n, results).

End Notebook.

(* ===================================================================== *)
(** ** The OpenAPI document of [/query]                                   *)
(* ===================================================================== *)

(** The part of the schema language the document uses. *)
Inductive Schema : Type :=
  | SString
  | SInteger
  | SArray (items : Schema)
  | SObject (properties : list (string * Schema)) (required : list string).

(** A value satisfies [type: object] when it is an object that has every
    required key and whose listed properties, where present, satisfy their
    schemas. *)
Fixpoint validate (s : Schema) (v : json) : bool :=
  match s, v with
  | SString, JStr _ => true
  | SInteger, JInt _ => true
  | SArray items, JArr vs => forallb (validate items) vs
  | SObject properties required, JObj fields =>
      forallb (λ k, bool_decide (is_Some (json_get k fields))) required
      && (fix props (ps : list (string * Schema)) : bool :=
            match ps with
            | [] => true
            | (k, sk) :: ps' =>
                match json_get k fields with
                | Some fv => validate sk fv
                | None => true
                end && props ps'
            end) properties
  | _, _ => false
  end.

(** [components.schemas] of the document. *)
Module Schemas.

(** [QueryRequest]: an object with the string property [query], required. *)
Definition QueryRequest : Schema :=
  SObject [("query", SString)] ["query"].

(** [Document]: [page_content], [metadata] (an object with [title] and the
    integer [id]) and [type]. *)
Definition Document : Schema :=
  SObject [("page_content", SString);
           ("metadata", SObject [("title", SString); ("id", SInteger)] []);
           ("type", SString)] [].

(** [QueryResponse]: [query], [result] and the array [source_documents]. *)
Definition QueryResponse : Schema :=
  SObject [("query", SString);
           ("result", SString);
           ("source_documents", SArray Document)] [].

(** [ErrorResponse]: the string property [detail]. *)
Definition ErrorResponse : Schema :=
  SObject [("detail", SString)] [].

End Schemas.

(** The security scheme [ApiKeyAuth]: [type: apiKey], [in: header],
    [name: apikey]. *)
Definition ApiKeyAuth : string := "apikey".

(** The JSON bodies of the responses, property by property as the schemas
    name them. *)
Definition json_of_Document (d : Document) : json :=
  JObj [("page_content", JStr (page_content d));
        ("metadata", JObj [("title", JStr (meta_title (metadata d)));
                           ("id", JInt (meta_id (metadata d)))]);
        ("type", JStr (type d))].

Definition json_of_QueryResponse (r : QueryResponse) : json :=
  JObj [("query", JStr (query r));
        ("result", JStr (result r));
        ("source_documents", JArr (json_of_Document <$> source_documents r))].

Definition json_of_error (detail : string) : json :=
  JObj [("detail", JStr detail)].

(** An HTTP request to [POST /query]: its headers and its JSON body, when it
    has one. *)
Record Request := { headers : list (string * string); body : option json }.

(** The response: the status code and the JSON body, when there is one. *)
Record Response := { status : Z; content : option json }.

(** The value of a header of the request. *)
Fixpoint header (name : string) (hs : list (string * string)) : option string :=
  match hs with
  | [] => None
  | (k, v) :: rest => if String.eqb k name then Some v else header name rest
  end.

(** The [query] of a body that satisfies the schema [QueryRequest]. *)
Definition query_of (b : json) : option string :=
  match b with
  | JObj fields =>
      match json_get "query" fields with
      | Some (JStr q) => Some q
      | _ => None
      end
  | _ => None
  end.

(** What a deployment of the endpoint fixes: the API keys it accepts and the
    chain it runs. *)
Record Deployment := { valid_key : string → bool; chain : RetrievalQA }.

(** [try: m except Exception as e: handler(str(e))]. *)
Definition catch {A} (m : M A) (handler : string → M A) : M A := λ es,
  match m es with
  | (Err d, es1, t1) =>
      match handler d es1 with
      | (r, es2, t2) => (r, es2, t1 ++ t2)
      end
  | done => done
  end.

(** Modelled from the spec: the request carries a valid API key in the
    header the security scheme names. *)
Definition authorized (dep : Deployment) (req : Request) : bool :=
  match header ApiKeyAuth (headers req) with
  | Some key => valid_key dep key
  | None => false
  end.

(** The value under [query] in the body, when the body is an object. *)
Definition query_field (req : Request) : option json :=
  match body req with
  | Some (JObj fields) => json_get "query" fields
  | _ => None
  end.

(** Modelled from the spec: the handler takes the query of a body that
    satisfies the schema [QueryRequest] and whose query is not the empty
    string; a request with an empty or missing query has none. *)
Definition request_query (req : Request) : option string :=
  match body req with
  | Some b =>
      if validate Schemas.QueryRequest b then
        match query_of b with
        | Some q => if String.eqb q "" then None else Some q
        | None => None
        end
      else None
  | None => None
  end.

(** The response [401] of the document: no content. *)
Definition unauthorized : Response := {| status := 401; content := None |}.

(** Modelled from the spec: a request that fails validation is rejected with
    400-class behaviour; the document declares no response for it. *)
Definition rejected : Response := {| status := 400; content := None |}.

(** The response [200] of the document: a QueryResponse. *)
Definition success (r : QueryResponse) : Response :=
  {| status := 200; content := Some (json_of_QueryResponse r) |}.

(** The response [500] of the document: an ErrorResponse. *)
Definition server_error (detail : string) : Response :=
  {| status := 500; content := Some (json_of_error detail) |}.

Section Endpoint.
Context (ext : Externals) (dep : Deployment).

(** Modelled from the spec: the handler of [POST /query] is not part of the
    repository, only its OpenAPI document is.  The request must carry a valid
    API key in the header [apikey] (401 otherwise); its body must satisfy the
    schema [QueryRequest] and carry a query that is not empty (the request
    is rejected otherwise, before any provider is called); the query
    pipeline then runs once, 200 with the QueryResponse on success, 500 with
    [{detail: string}] when a provider fails. *)
Definition post_query (req : Request) : M Response :=
  if negb (authorized dep req) then ret unauthorized
  else
    match request_query req with
    | None => ret rejected
    | Some q =>
        catch (do r <- run_chain ext (chain dep) q; ret (success r))
              (λ detail, ret (server_error detail))
    end.

End Endpoint.

(* ===================================================================== *)
(** ** The cells around the pipeline                                      *)
(* ===================================================================== *)

(** *** Cell 12: the question files *)

(** The working directory: the content of each file, under its name. *)
Abbreviation FileSystem := (gmap string string).

Definition questions_test_filename : string := "questions_test.csv".
Definition questions_train_filename : string := "questions_train.csv".
Definition questions_test_url : string :=
  "https://raw.github.com/IBM/watson-machine-learning-samples/master/cloud/data/RAG/questions_test.csv".
Definition questions_train_url : string :=
  "https://raw.github.com/IBM/watson-machine-learning-samples/master/cloud/data/RAG/questions_train.csv".

Section Download.
(** What a URL serves, or the error of the request. *)
Context (web : string → Result string).

(** [os.path.isfile(filename)]. *)
Definition isfile (filename : string) (fs : FileSystem) : bool :=
  bool_decide (is_Some (fs !! filename)).

(** [wget.download(url, out=filename)], called for a name that is not a
    file: the content is fetched and stored under the name.  The run lists
    the URLs requested. *)
Definition wget_download (url out : string) (fs : FileSystem)
    : Result unit * FileSystem * list string :=
  match web url with
  | Ok content => (Ok tt, <[out := content]> fs, [url])
  | Err detail => (Err detail, fs, [url])
  end.

(** [if not os.path.isfile(filename): wget.download(url, out=filename)]. *)
Definition download_if_missing (url filename : string) (fs : FileSystem)
    : Result unit * FileSystem * list string :=
  if isfile filename fs then (Ok tt, fs, []) else wget_download url filename fs.

(** Cell 12: the test questions, then the training questions. *)
Definition download_questions (fs : FileSystem)
    : Result unit * FileSystem * list string :=
  match download_if_missing questions_test_url questions_test_filename fs with
  | (Ok _, fs1, t1) =>
      match download_if_missing questions_train_url questions_train_filename fs1 with
      | (r, fs2, t2) => (r, fs2, t1 ++ t2)
      end
  | (Err detail, fs1, t1) => (Err detail, fs1, t1)
  end.

End Download.

(** *** Cell 33: the connection settings *)

(** A question put to the user: [getpass.getpass(text)] or [input(text)]. *)
Inductive Prompt := Getpass (text : string) | Input (text : string).

Record Connection := { esapikey : string; eshost : string; esport : string }.

(** [try: value = os.environ[name] / except KeyError: value = ask]: the
    value and the prompts shown. *)
Definition environ_or_ask (environ : gmap string string) (user : Prompt → string)
    (name : string) (ask : Prompt) : string * list Prompt :=
  match environ !! name with
  | Some value => (value, [])
  | None => (user ask, [ask])
  end.

Definition ask_esapikey : Prompt :=
  Getpass "Please enter your Elasticsearch API KEY (hit enter): ".
Definition ask_eshost : Prompt :=
  Input "Please enter your Elasticsearch hostname (hit enter): ".
Definition ask_esport : Prompt :=
  Input "Please enter your Elasticsearch port number (hit enter): ".

(** Cell 33; [user] is what the user types at each prompt. *)
Definition connection_settings (environ : gmap string string) (user : Prompt → string)
    : Connection * list Prompt :=
  let key := environ_or_ask environ user "ESAPIKEY" ask_esapikey in
  let host := environ_or_ask environ user "ESHOST" ask_eshost in
  let port := environ_or_ask environ user "ESPORT" ask_esport in
  ({| esapikey := key.1; eshost := host.1; esport := port.1 |},
   key.2 ++ host.2 ++ port.2).

(** *** Cell 35: the certificate fingerprint *)

(** [s.split(sep)] for a separator of one character. *)
Fixpoint split (sep : ascii) (s : string) : list string :=
  match s with
  | EmptyString => [""]
  | String c rest =>
      if Ascii.eqb c sep then "" :: split sep rest
      else
        match split sep rest with
        | piece :: pieces => String c piece :: pieces
        | [] => [String c ""]
        end
  end.

Definition IndexError : string := "IndexError: list index out of range".

(** [lines[0].split("=")[1]], [lines] being what the shell command printed. *)
Definition fingerprint (lines : list string) : Result string :=
  match lines with
  | [] => Err IndexError
  | line :: _ =>
      match split "=" line with
      | _ :: value :: _ => Ok value
      | _ => Err IndexError
      end
  end.

(** *** Cell 46: a sample document *)

Definition NotFoundError : string := "NotFoundError".
Definition empty_range : string := "ValueError: empty range for randrange()".

(** Modelled from the spec: [es_connection.get(index=..., id=...)] reads the
    document the index holds under the id; the id is sent as its [str]. *)
Definition es_get (index : string) (doc_id : Z) (es : Cluster) : Result IndexedDocument :=
  match es !! index with
  | None => Err index_not_found
  | Some idx =>
      match idx !! str doc_id with
      | Some d => Ok d
      | None => Err NotFoundError
      end
  end.

(** Cell 46: [es_connection.get(index=indexName,
    id=random.randint(0, len(documents)-1))]; [draw] names the index as in
    cell 37, [pick] is the generator's output for this call.  [randint]
    raises on an empty range. *)
Definition sample_document (draw pick : Z) (documents : list Passage) (es : Cluster)
    : Result IndexedDocument :=
  if decide (Z.of_nat (length documents) - 1 < 0) then Err empty_range
  else es_get (indexName draw) (randint 0 (Z.of_nat (length documents) - 1) pick) es.

(** *** Cells 50 to 55: the questions and the report *)

(** Cell 50: a dict literal, in insertion order. *)
Definition questions_and_answers : list (string * string) :=
  [ ("names of founding fathers of the united states?",
     "Thomas Jefferson::James Madison::John Jay::George Washington::John Adams::Benjamin Franklin::Alexander Hamilton");
    ("who played in the super bowl in 2013?",
     "Baltimore Ravens::San Francisco 49ers") ].

(** [d.keys()]. *)
Definition keys (d : list (string * string)) : list string := d.*1.

(** [d[key]], raising [KeyError]. *)
Fixpoint getitem (d : list (string * string)) (key : string) : Result string :=
  match d with
  | [] => Err ("KeyError: " +:+ key)
  | (k, v) :: rest => if String.eqb k key then Ok v else getitem rest key
  end.

(** [print] of the strings [args] with the separator [sep]: the text
    written to the output. *)
Definition print (sep : string) (args : list string) : string :=
  join sep args +:+ newline.

(** One turn of the loop of cell 55: what is printed, and whether the turn
    raised. *)
Definition report_result (d : list (string * string)) (r : QueryResponse)
    : Result unit * string :=
  let head :=
    print " " ["========="]
    +:+ print " " ["Question = "; query r]
    +:+ print " " ["Answer = "; result r] in
  match getitem d (query r) with
  | Err detail => (Err detail, head)
  | Ok expected =>
      (Ok tt,
       head
       +:+ print " " ["Expected Answer(s) (may not be appear with exact wording in the dataset) = ";
                      expected]
       +:+ print " " [newline]
       +:+ print " " ["Source documents:"]
       +:+ print newline (page_content <$> source_documents r)
       +:+ print " " [newline])
  end.

(** Cell 55: [for idx, result in enumerate(results): ...]. *)
Fixpoint report (d : list (string * string)) (results : list QueryResponse)
    : Result unit * string :=
  match results with
  | [] => (Ok tt, "")
  | r :: rest =>
      match report_result d r with
      | (Err detail, out) => (Err detail, out)
      | (Ok _, out) =>
          match report d rest with
          | (status, out') => (status, out +:+ out')
          end
      end
  end.

(* ===================================================================== *)
(** ** A concrete run: the two-passage corpus                             *)
(* ===================================================================== *)

Module Scenario.

Definition paris : Passage :=
  {| id := 1; title := "A"; text := "Paris is the capital of France." |}.

Definition tokyo : Passage :=
  {| id := 2; title := "B"; text := "Tokyo is the capital of Japan." |}.

Definition corpus : list Passage := [paris; tokyo].

(** A second row under the id of the first. *)
Definition paris_again : Passage :=
  {| id := 1; title := "C"; text := "Paris is on the Seine." |}.

Definition mentions (word s : string) : Q :=
  if String.index 0 word s is Some _ then 1%Q else 0%Q.

(** A two-dimensional embedding: does the text mention France, Japan. *)
Definition keyword_encode (model text : string) : Result vector :=
  if String.eqb model "all-MiniLM-L6-v2"
  then Ok [mentions "France" text; mentions "Japan" text]
  else Err "unknown embedding model".

Definition providers : Externals :=
  {| encode := keyword_encode;
     generate := λ _ _ prompt, Ok ("Answer to: " +:+ prompt);
     stuff_prompt := λ context question,
       context +:+ newline +:+ "Question: " +:+ question;
     document_separator := newline +:+ newline;
     default_k := 4 |}.

(** The same, with the language model out of reach. *)
Definition providers_down : Externals :=
  {| encode := keyword_encode;
     generate := λ _ _ _, Err "watsonx.ai is unreachable";
     stuff_prompt := stuff_prompt providers;
     document_separator := document_separator providers;
     default_k := default_k providers |}.

Definition question : string := "What is the capital of France?".

Definition deployment : Deployment :=
  {| valid_key := String.eqb "secret"; chain := qa providers 7 |}.

Definition request (key : option string) (b : option json) : Request :=
  {| headers := match key with Some k => [("apikey", k)] | None => [] end;
     body := b |}.

(** The cluster after the corpus was indexed under the name drawn with 7. *)
Definition indexed : Cluster :=
  cluster_of (index_documents providers 7 corpus ∅).

(** The cluster after an empty corpus was indexed under the same name. *)
Definition indexed_nothing : Cluster :=
  cluster_of (index_documents providers 7 [] ∅).

Definition ask (q : string) : Request :=
  request (Some "secret") (Some (JObj [("query", JStr q)])).

End Scenario.

(** Fixtures for the cells around the pipeline. *)
Module Fixtures.

(** A web that serves the two question files and nothing else. *)
Definition web (url : string) : Result string :=
  if String.eqb url questions_test_url then Ok "question,answers"
  else if String.eqb url questions_train_url then Ok "question,answers,train"
  else Err "HTTP Error 404: Not Found".

(** A working directory in which the test questions were edited by hand. *)
Definition edited : FileSystem := {[ questions_test_filename := "my own questions" ]}.

(** An embedding model that is not installed. *)
Definition providers_without_embeddings : Externals :=
  {| encode := λ _ _, Err "sentence_transformers is not installed";
     generate := generate Scenario.providers;
     stuff_prompt := stuff_prompt Scenario.providers;
     document_separator := document_separator Scenario.providers;
     default_k := default_k Scenario.providers |}.

(** The user types the same text at every prompt. *)
Definition user (ask : Prompt) : string := "typed".

(** An environment that names the host and nothing else. *)
Definition environ : gmap string string := {[ "ESHOST" := "es.example.org" ]}.

(** A corpus whose ids are 0 and 1. *)
Definition zero_based : list Passage :=
  [ {| id := 0; title := "A"; text := "Paris is the capital of France." |};
    {| id := 1; title := "B"; text := "Tokyo is the capital of Japan." |} ].

End Fixtures.

(* ===================================================================== *)
(** ** Indexing                                                           *)
(* ===================================================================== *)

Arguments str : simpl never.
Arguments indexName : simpl never.

Lemma str_inj : Inj (=) (=) str.
Proof. unfold str. apply _. Qed.

Lemma traverse_length {A B} (f : A → Result B) xs ys :
  traverse f xs = Ok ys → length ys = length xs.
Proof.
  revert ys. induction xs as [|x xs IH]; intros ys; simpl.
  - by intros [= <-].
  - destruct (f x); [|done]. destruct (traverse f xs); [|done].
    intros [= <-]. simpl. f_equal. by apply IH.
Qed.

Lemma traverse_Forall2 {A B} (f : A → Result B) xs ys :
  traverse f xs = Ok ys → Forall2 (λ x y, f x = Ok y) xs ys.
Proof.
  revert ys. induction xs as [|x xs IH]; intros ys; simpl.
  - intros [= <-]. constructor.
  - destruct (f x) eqn:Hx; [|done]. destruct (traverse f xs); [|done].
    intros [= <-]. constructor; [done|]. by apply IH.
Qed.

Lemma index_requests_documents (documents : list Passage) (vs : list vector) :
  length vs = length documents →
  index_requests ((λ p, str (id p)) <$> documents) (indextext <$> documents) vs
                 (metadata_of <$> documents)
  = zip_with indexed_document documents vs.
Proof.
  revert vs. induction documents as [|p ps IH]; intros [|v vs]; simpl; try done.
  intros [= Hlen]. by rewrite IH.
Qed.

Lemma indexed_document_keys (documents : list Passage) (vs : list vector) :
  length vs = length documents →
  (zip_with indexed_document documents vs).*1 = (λ p, str (id p)) <$> documents.
Proof.
  revert vs. induction documents as [|p ps IH]; intros [|v vs]; simpl; try done.
  intros [= Hlen]. by rewrite IH.
Qed.

Lemma lookup_foldl_upsert_notin (idx : Index) requests k :
  k ∉ requests.*1 → foldl upsert idx requests !! k = idx !! k.
Proof.
  revert idx. induction requests as [|[k' d] rs IH]; intros idx Hk; simpl; [done|].
  simpl in Hk. apply not_elem_of_cons in Hk as [Hne Hk].
  rewrite IH by done. unfold upsert. simpl.
  by rewrite lookup_insert_ne.
Qed.

Lemma lookup_foldl_upsert (idx : Index) requests k d :
  NoDup requests.*1 → (k, d) ∈ requests → foldl upsert idx requests !! k = Some d.
Proof.
  revert idx. induction requests as [|[k' d'] rs IH]; intros idx Hnd Hin; simpl.
  - by apply elem_of_nil in Hin.
  - simpl in Hnd. apply NoDup_cons in Hnd as [Hk' Hnd].
    apply elem_of_cons in Hin as [[= -> ->]|Hin].
    + rewrite lookup_foldl_upsert_notin by done. unfold upsert. simpl.
      by rewrite lookup_insert_eq.
    + by apply IH.
Qed.

Lemma size_foldl_upsert (idx : Index) requests :
  NoDup requests.*1 → (∀ k, k ∈ requests.*1 → idx !! k = None) →
  size (foldl upsert idx requests) = (size idx + length requests)%nat.
Proof.
  revert idx. induction requests as [|[k d] rs IH]; intros idx Hnd Hfresh; simpl.
  - lia.
  - simpl in Hnd. apply NoDup_cons in Hnd as [Hk Hnd].
    rewrite IH; [| done |].
    + unfold upsert. simpl. rewrite map_size_insert_None; [lia|].
      apply Hfresh. simpl. by left.
    + intros k' Hk'. unfold upsert. simpl. rewrite lookup_insert_ne.
      * apply Hfresh. simpl. by right.
      * intros ->. done.
Qed.

Section IndexingFacts.
Context (ext : Externals).

(** The whole of cell 40, when the embedding model answers: the result, the
    cluster afterwards and the calls made, for any cluster before. *)
Lemma index_documents_run draw documents (es : Cluster) vs :
  traverse (encode ext (model_name emb_func)) (indextext <$> documents) = Ok vs →
  index_documents ext draw documents es =
    (Ok ((λ p, str (id p)) <$> documents),
     <[indexName draw := foldl upsert ∅ (zip_with indexed_document documents vs)]> es,
     [EsIndicesExists (indexName draw)]
     ++ (if bool_decide (is_Some (es !! indexName draw))
         then [EsIndicesDelete (indexName draw)] else [])
     ++ [EmbedDocuments (model_name emb_func) (indextext <$> documents);
         EsIndicesExists (indexName draw);
         EsIndicesCreate (indexName draw);
         EsBulk (indexName draw) (zip_with indexed_document documents vs)]).
Proof.
  intros Hvs. pose proof (traverse_length _ _ _ Hvs) as Hlen.
  rewrite length_fmap in Hlen.
  unfold index_documents, add_texts, embed_documents, create_index_if_not_exists,
    bulk, bind, call, lift, ret, indices_exists, indices_delete, indices_create.
  cbn [knowledge_base index_name embedding].
  rewrite Hvs, index_requests_documents by done.
  destruct (es !! indexName draw) as [old|] eqn:Hes.
  - rewrite bool_decide_eq_true_2 by eauto. rewrite Hes.
    rewrite lookup_delete_eq.
    rewrite bool_decide_eq_false_2 by (by intros [? ?]).
    rewrite lookup_insert_eq. cbn [default].
    by rewrite insert_insert_eq, insert_delete_eq.
  - rewrite bool_decide_eq_false_2 by (by intros [? ?]). rewrite Hes.
    rewrite bool_decide_eq_false_2 by (by intros [? ?]).
    rewrite lookup_insert_eq. cbn [default].
    by rewrite insert_insert_eq.
Qed.

End IndexingFacts.

(* ===================================================================== *)
(** ** Ranking                                                            *)
(* ===================================================================== *)

#[global] Instance outranks_trans : Transitive outranks.
Proof. intros h1 h2 h3 H12 H23. unfold outranks in *. by eapply Qle_trans. Qed.

Lemma insert_hit_perm h hs : insert_hit h hs ≡ₚ h :: hs.
Proof.
  induction hs as [|h' hs IH]; simpl; [done|].
  destruct (Qle_bool (hit_score h') (hit_score h)); [done|].
  rewrite IH. apply Permutation_swap.
Qed.

Lemma rank_perm hs : rank hs ≡ₚ hs.
Proof.
  induction hs as [|h hs IH]; simpl; [done|].
  by rewrite insert_hit_perm, IH.
Qed.

Lemma insert_hit_sorted h hs :
  StronglySorted outranks hs → StronglySorted outranks (insert_hit h hs).
Proof.
  induction 1 as [|h' hs Hhs IH Hall]; simpl.
  - repeat constructor.
  - destruct (Qle_bool (hit_score h') (hit_score h)) eqn:Hle.
    + apply Qle_bool_iff in Hle.
      constructor; [by constructor|].
      constructor; [done|].
      eapply Forall_impl; [exact Hall|].
      intros h'' Hh''. unfold outranks in *. by eapply Qle_trans.
    + constructor; [done|].
      rewrite insert_hit_perm. constructor; [|done].
      unfold outranks. apply Qlt_le_weak, Qnot_le_lt.
      intros Hle'. apply Qle_bool_iff in Hle'. congruence.
Qed.

Lemma rank_sorted hs : StronglySorted outranks (rank hs).
Proof.
  induction hs as [|h hs IH]; simpl; [constructor|].
  by apply insert_hit_sorted.
Qed.

Lemma StronglySorted_take {A} (R : relation A) k l :
  StronglySorted R l → StronglySorted R (take k l).
Proof.
  intros Hl. rewrite <-(take_drop k l) in Hl.
  by apply StronglySorted_app_1_l in Hl.
Qed.

Lemma knn_length idx qv k : (length (knn idx qv k) ≤ k)%nat.
Proof. unfold knn. rewrite length_take. lia. Qed.

Lemma knn_sorted idx qv k : StronglySorted outranks (knn idx qv k).
Proof. unfold knn. apply StronglySorted_take, rank_sorted. Qed.

Lemma knn_hits idx qv k : Forall (hit_of_index idx qv) (knn idx qv k).
Proof.
  apply Forall_forall. intros h Hh. unfold knn in Hh.
  apply elem_of_take in Hh as (i & Hh & _).
  apply list_elem_of_lookup_2 in Hh. rewrite rank_perm in Hh.
  apply list_elem_of_fmap in Hh as ([key d] & -> & Hkd).
  apply elem_of_map_to_list in Hkd. by split.
Qed.

(** No document left out of the answer scores higher than one in it. *)
Lemma knn_top idx qv k h key d :
  h ∈ knn idx qv k → idx !! key = Some d →
  score_hit qv (key, d) ∈ knn idx qv k
  ∨ Qle (dot qv (es_vector d)) (hit_score h).
Proof.
  intros Hh Hd. unfold knn in *.
  assert (score_hit qv (key, d) ∈ rank (score_hit qv <$> map_to_list idx)) as Hin.
  { rewrite rank_perm. apply list_elem_of_fmap. exists (key, d).
    split; [done|]. by apply elem_of_map_to_list. }
  pose proof (rank_sorted (score_hit qv <$> map_to_list idx)) as Hs.
  rewrite <-(take_drop k (rank _)) in Hin, Hs.
  apply elem_of_app in Hin as [Hin|Hin]; [by left|right].
  by apply (StronglySorted_app_1_elem_of _ _ _ h (score_hit qv (key, d))) in Hs.
Qed.

(* ===================================================================== *)
(** ** The query pipeline                                                 *)
(* ===================================================================== *)

Arguments knn : simpl never.
Arguments context_of : simpl never.

Ltac unfold_chain :=
  unfold run_chain, get_relevant_documents, embed_query, llm_call, search,
    bind, call, lift, ret.

Section QueryFacts.
Context (ext : Externals).

(** A run of the chain in which both providers answer and the index exists. *)
Lemma run_chain_run chain q (es : Cluster) idx qv a :
  es !! index_name (vectorstore (retriever chain)) = Some idx →
  encode ext (model_name (embedding (vectorstore (retriever chain)))) q = Ok qv →
  generate ext (model_id (llm chain)) (params (llm chain))
    (stuff_prompt ext
       (context_of ext (document_of_hit <$> knn idx qv (search_k (retriever chain)))) q)
  = Ok a →
  run_chain ext chain q es =
    (Ok {| query := q;
           result := a;
           source_documents :=
             if return_source_documents chain
             then document_of_hit <$> knn idx qv (search_k (retriever chain))
             else [] |},
     es,
     [EmbedQuery (model_name (embedding (vectorstore (retriever chain)))) q;
      EsSearch (index_name (vectorstore (retriever chain))) qv (search_k (retriever chain));
      Generate (model_id (llm chain)) (params (llm chain))
        (stuff_prompt ext
           (context_of ext (document_of_hit <$> knn idx qv (search_k (retriever chain)))) q)]).
Proof.
  intros Hidx Hqv Ha. unfold_chain. by rewrite Hqv, Hidx, Ha.
Qed.

(** Conversely, an answer comes from such a run. *)
Lemma run_chain_Ok chain q (es : Cluster) resp :
  outcome (run_chain ext chain q es) = Ok resp →
  ∃ idx qv a,
    es !! index_name (vectorstore (retriever chain)) = Some idx
    ∧ encode ext (model_name (embedding (vectorstore (retriever chain)))) q = Ok qv
    ∧ generate ext (model_id (llm chain)) (params (llm chain))
        (stuff_prompt ext
           (context_of ext (document_of_hit <$> knn idx qv (search_k (retriever chain)))) q)
      = Ok a
    ∧ resp = {| query := q;
                result := a;
                source_documents :=
                  if return_source_documents chain
                  then document_of_hit <$> knn idx qv (search_k (retriever chain))
                  else [] |}.
Proof.
  unfold_chain. unfold outcome.
  destruct (encode ext _ q) as [qv|] eqn:Hqv; [|done].
  destruct (es !! _) as [idx|] eqn:Hidx; [|done].
  destruct (generate ext _ _ _) as [a|] eqn:Ha; [|done].
  simpl. intros [= <-]. by exists idx, qv, a.
Qed.

(** The chain reads the cluster and never writes to it. *)
Lemma run_chain_cluster chain q (es : Cluster) :
  cluster_of (run_chain ext chain q es) = es.
Proof.
  unfold_chain. unfold cluster_of.
  destruct (encode ext _ q) as [qv|]; [|done].
  destruct (es !! _) as [idx|]; [|done].
  by destruct (generate ext _ _ _).
Qed.

(** The calls of a run, whatever its outcome: the question is embedded
    first, with the embedding function of the store; the language model is
    called last, with the chain's own parameters. *)
Lemma run_chain_trace chain q (es : Cluster) :
  ∃ rest,
    trace (run_chain ext chain q es)
    = EmbedQuery (model_name (embedding (vectorstore (retriever chain)))) q :: rest
    ∧ Forall (λ c, is_embedding_call c = false
                   ∧ (is_generate_call c = true →
                      ∃ prompt, c = Generate (model_id (llm chain)) (params (llm chain)) prompt))
             rest.
Proof.
  unfold_chain. unfold trace.
  destruct (encode ext _ q) as [qv|]; [|by eexists].
  destruct (es !! _) as [idx|]; [|eexists; split; [done|]; by repeat constructor].
  destruct (generate ext _ _ _); (eexists; split; [done|]);
    repeat constructor; try done; intros _; by eexists.
Qed.

End QueryFacts.

(* ===================================================================== *)
(** ** The indexing pipeline: what is indexed, where, and how much        *)
(* ===================================================================== *)

Section IndexingFailure.
Context (ext : Externals).

(** Cell 40 when the embedding model fails: the index is gone already and
    nothing is written. *)
Lemma index_documents_fail draw documents (es : Cluster) detail :
  traverse (encode ext (model_name emb_func)) (indextext <$> documents) = Err detail →
  index_documents ext draw documents es =
    (Err detail,
     delete (indexName draw) es,
     [EsIndicesExists (indexName draw)]
     ++ (if bool_decide (is_Some (es !! indexName draw))
         then [EsIndicesDelete (indexName draw)] else [])
     ++ [EmbedDocuments (model_name emb_func) (indextext <$> documents)]).
Proof.
  intros Hvs.
  unfold index_documents, add_texts, embed_documents, bind, call, lift, ret,
    indices_exists, indices_delete.
  cbn [knowledge_base index_name embedding]. rewrite Hvs.
  destruct (es !! indexName draw) as [old|] eqn:Hes.
  - rewrite bool_decide_eq_true_2 by eauto. by rewrite Hes.
  - rewrite bool_decide_eq_false_2 by (by intros [? ?]).
    by rewrite delete_id.
Qed.

(** The calls of cell 40, whatever the embedding model answers. *)
Lemma index_documents_trace draw documents (es : Cluster) :
  ∃ rest,
    trace (index_documents ext draw documents es)
    = [EsIndicesExists (indexName draw)]
      ++ (if bool_decide (is_Some (es !! indexName draw))
          then [EsIndicesDelete (indexName draw)] else [])
      ++ EmbedDocuments (model_name emb_func) (indextext <$> documents) :: rest
    ∧ Forall (λ c, is_embedding_call c = false ∧ c ≠ EsIndicesDelete (indexName draw)) rest.
Proof.
  destruct (traverse (encode ext (model_name emb_func)) (indextext <$> documents))
    as [vs|detail] eqn:Hvs.
  - rewrite (index_documents_run _ _ _ _ _ Hvs). eexists. split; [done|].
    by repeat constructor.
  - rewrite (index_documents_fail _ _ _ _ Hvs). eexists. split; [done|].
    constructor.
Qed.

End IndexingFailure.

Lemma indexName_range draw :
  ∃ n, 0 ≤ n ≤ 2000 ∧ indexName draw = "lab-langchain-test-" +:+ str n.
Proof.
  exists (randint 0 2000 draw). split; [|done].
  unfold randint. pose proof (Z.mod_pos_bound draw (2000 - 0 + 1)). lia.
Qed.

Lemma indexName_in_range n :
  0 ≤ n ≤ 2000 → indexName n = "lab-langchain-test-" +:+ str n.
Proof.
  intros Hn. unfold indexName, randint. do 2 f_equal.
  rewrite Z.mod_small; lia.
Qed.

Lemma indexName_inj m n :
  0 ≤ m ≤ 2000 → 0 ≤ n ≤ 2000 → indexName m = indexName n → m = n.
Proof.
  intros Hm Hn. rewrite !indexName_in_range by done.
  intros Heq. apply (inj (String.append _)) in Heq. by apply str_inj.
Qed.

Lemma lookup_foldl_upsert_Some (idx : Index) requests k d :
  foldl upsert idx requests !! k = Some d →
  (k, d) ∈ requests ∨ idx !! k = Some d.
Proof.
  revert idx. induction requests as [|[k' d'] rs IH]; intros idx; simpl; [by right|].
  intros [Hin|Hidx]%IH; [left; by right|].
  unfold upsert in Hidx. simpl in Hidx.
  destruct (decide (k' = k)) as [->|Hne].
  - rewrite lookup_insert_eq in Hidx. injection Hidx as ->. left. by left.
  - rewrite lookup_insert_ne in Hidx by done. by right.
Qed.

Lemma lookup_foldl_upsert_key (idx : Index) requests k :
  k ∈ requests.*1 → ∃ d, foldl upsert idx requests !! k = Some d ∧ (k, d) ∈ requests.
Proof.
  revert idx. induction requests as [|[k' d'] rs IH]; intros idx; simpl.
  - by intros ?%elem_of_nil.
  - destruct (decide (k ∈ rs.*1)) as [Hin|Hnotin].
    + intros _. destruct (IH (upsert idx (k', d')) Hin) as (d & Hd & Hdin).
      exists d. split; [done|by right].
    + intros [->|?]%elem_of_cons; [|done].
      exists d'. rewrite lookup_foldl_upsert_notin by done.
      unfold upsert. simpl. rewrite lookup_insert_eq. split; [done|by left].
Qed.

Section IndexingClaims.
Context (ext : Externals).

(** C6.  For every passage of the corpus, cell 40 hands the embedding model
    exactly the string [title + "\n" + text] and upserts that string, with
    its embedding and the metadata [{title, id}], under the key [str(id)]:
    the only embedding call names these strings, the bulk request is the
    list of these documents in corpus order, every passage id is a key of the
    resulting index, and whatever the index holds is such a document. *)
Theorem passages_indexed_as_title_newline_text draw documents (es : Cluster) vs :
  traverse (encode ext (model_name emb_func))
           ((λ p, title p +:+ newline +:+ text p) <$> documents) = Ok vs →
  let run := index_documents ext draw documents es in
  List.filter is_embedding_call (trace run)
  = [EmbedDocuments (model_name emb_func)
       ((λ p, title p +:+ newline +:+ text p) <$> documents)]
  ∧ Forall2 (λ p v, encode ext (model_name emb_func) (title p +:+ newline +:+ text p) = Ok v)
            documents vs
  ∧ last (trace run)
    = Some (EsBulk (indexName draw) (zip_with indexed_document documents vs))
  ∧ ∃ idx : Index,
      cluster_of run !! indexName draw = Some idx
      ∧ (∀ p, p ∈ documents →
           ∃ d, idx !! str (id p) = Some d ∧ meta_id (es_metadata d) = id p)
      ∧ (∀ key d, idx !! key = Some d →
           ∃ p v, p ∈ documents
             ∧ encode ext (model_name emb_func) (title p +:+ newline +:+ text p) = Ok v
             ∧ key = str (id p)
             ∧ d = {| es_text := title p +:+ newline +:+ text p;
                      es_vector := v;
                      es_metadata := {| meta_title := title p; meta_id := id p |} |}).
Proof.
  intros Hvs run. subst run.
  pose proof (traverse_length _ _ _ Hvs) as Hlen. rewrite length_fmap in Hlen.
  pose proof (traverse_Forall2 _ _ _ Hvs) as Hall.
  apply Forall2_fmap_l in Hall.
  rewrite (index_documents_run ext draw documents es vs Hvs).
  unfold trace, cluster_of. cbn [fst snd].
  split; [|split; [exact Hall|split]].
  - by destruct (bool_decide _).
  - rewrite app_assoc. by rewrite (last_app_cons _ _ (EmbedDocuments _ _)).
  - eexists. split; [by rewrite lookup_insert_eq|]. split.
    + intros p Hp.
      destruct (lookup_foldl_upsert_key ∅ (zip_with indexed_document documents vs) (str (id p)))
        as (d & Hd & Hin).
      { rewrite indexed_document_keys by done.
        by apply (list_elem_of_fmap_2 (λ p, str (id p))). }
      exists d. split; [done|].
      apply elem_of_lookup_zip_with_1 in Hin as (i & p' & v & Heq & _ & _).
      injection Heq as Hkey ->. simpl. by apply str_inj in Hkey.
    + intros key d [Hin|Hempty]%lookup_foldl_upsert_Some; [|by rewrite lookup_empty in Hempty].
      apply elem_of_lookup_zip_with_1 in Hin as (i & p & v & Heq & Hp & Hv).
      injection Heq as -> ->. exists p, v.
      split; [by eapply list_elem_of_lookup_2|].
      split; [|done]. exact (Forall2_lookup_lr _ _ _ i p v Hall Hp Hv).
Qed.

End IndexingClaims.

Lemma passages_indexed_witness :
  traverse (encode Scenario.providers (model_name emb_func))
           ((λ p, title p +:+ newline +:+ text p) <$> Scenario.corpus)
  = Ok [[1%Q; 0%Q]; [0%Q; 1%Q]]
  ∧ last (trace (index_documents Scenario.providers 7 Scenario.corpus ∅))
    = Some (EsBulk (indexName 7)
              (zip_with indexed_document Scenario.corpus [[1%Q; 0%Q]; [0%Q; 1%Q]])).
Proof.
  assert (traverse (encode Scenario.providers (model_name emb_func))
            ((λ p, title p +:+ newline +:+ text p) <$> Scenario.corpus)
          = Ok [[1%Q; 0%Q]; [0%Q; 1%Q]]) as Hvs by (vm_compute; reflexivity).
  split; [exact Hvs|].
  exact (proj1 (proj2 (proj2
    (passages_indexed_as_title_newline_text Scenario.providers 7 Scenario.corpus ∅ _ Hvs)))).
Defined.

Section CountClaims.
Context (ext : Externals).

Lemma indexing_pipeline_run draw documents (es : Cluster) vs :
  traverse (encode ext (model_name emb_func)) (indextext <$> documents) = Ok vs →
  indexing_pipeline ext draw documents es =
    (Ok (size (foldl upsert (∅ : Index) (zip_with indexed_document documents vs))),
     <[indexName draw := foldl upsert ∅ (zip_with indexed_document documents vs)]> es,
     trace (index_documents ext draw documents es) ++ [EsCount (indexName draw)]).
Proof.
  intros Hvs. unfold indexing_pipeline, bind.
  rewrite (index_documents_run ext draw documents es vs Hvs).
  unfold doc_count, count. by rewrite lookup_insert_eq.
Qed.

(** The count of cell 44 after cell 40, for passages with distinct ids. *)
Lemma indexing_pipeline_count draw documents (es : Cluster) vs :
  NoDup (id <$> documents) →
  traverse (encode ext (model_name emb_func)) (indextext <$> documents) = Ok vs →
  outcome (indexing_pipeline ext draw documents es) = Ok (length documents).
Proof.
  intros Hnd Hvs. rewrite (indexing_pipeline_run _ _ _ _ Hvs).
  pose proof (traverse_length _ _ _ Hvs) as Hlen. rewrite length_fmap in Hlen.
  unfold outcome. cbn [fst]. f_equal.
  rewrite size_foldl_upsert.
  - rewrite map_size_empty, length_zip_with. lia.
  - rewrite indexed_document_keys by done.
    rewrite (list_fmap_compose id str). apply (NoDup_fmap_2 _), Hnd.
  - intros k _. apply lookup_empty.
Qed.

(** C3 (amended).  For every corpus of passages with pairwise distinct ids
    and every prior state of the cluster, the indexing pipeline drops the
    index of the drawn name when it exists (the delete call follows the
    existence check at once), leaves under that name an index built from
    nothing but the corpus, and counts as many documents as the corpus has
    passages; run again on the same corpus, under the same or another name,
    it counts the same. *)
Theorem reindexing_counts_the_corpus draw draw' documents (es : Cluster) vs :
  NoDup (id <$> documents) →
  traverse (encode ext (model_name emb_func)) (indextext <$> documents) = Ok vs →
  let first := indexing_pipeline ext draw documents es in
  let again := indexing_pipeline ext draw' documents (cluster_of first) in
  outcome first = Ok (length documents)
  ∧ (is_Some (es !! indexName draw) →
     take 2 (trace first)
     = [EsIndicesExists (indexName draw); EsIndicesDelete (indexName draw)])
  ∧ cluster_of first !! indexName draw
    = Some (foldl upsert ∅ (zip_with indexed_document documents vs))
  ∧ outcome again = Ok (length documents).
Proof.
  intros Hnd Hvs first again. subst first again.
  split; [by eapply indexing_pipeline_count|].
  split; [|split; [|by eapply indexing_pipeline_count]].
  - intros Hes. rewrite (indexing_pipeline_run _ _ _ _ Hvs).
    rewrite (index_documents_run _ _ _ _ _ Hvs). unfold trace. cbn [snd].
    by rewrite bool_decide_eq_true_2.
  - rewrite (indexing_pipeline_run _ _ _ _ Hvs). unfold cluster_of. cbn [fst snd].
    by rewrite lookup_insert_eq.
Qed.

End CountClaims.

Lemma reindexing_counts_witness :
  NoDup (id <$> Scenario.corpus)
  ∧ outcome (indexing_pipeline Scenario.providers 7 Scenario.corpus Scenario.indexed)
    = Ok 2%nat
  ∧ outcome (indexing_pipeline Scenario.providers 8 Scenario.corpus
               (cluster_of (indexing_pipeline Scenario.providers 7 Scenario.corpus
                              Scenario.indexed)))
    = Ok 2%nat.
Proof.
  assert (NoDup (id <$> Scenario.corpus)) as Hnd by (apply (bool_decide_unpack _); vm_compute; exact I).
  assert (traverse (encode Scenario.providers (model_name emb_func))
            (indextext <$> Scenario.corpus)
          = Ok [[1%Q; 0%Q]; [0%Q; 1%Q]]) as Hvs by (vm_compute; reflexivity).
  split; [exact Hnd|].
  pose proof (reindexing_counts_the_corpus Scenario.providers 7 8 Scenario.corpus
                Scenario.indexed _ Hnd Hvs) as (H1 & _ & _ & H2).
  split; [exact H1|exact H2].
Defined.

(** C3, as first stated, fails on a corpus in which two passages share an
    id: the second replaces the first in the index, and one document is
    counted for two passages. *)
Lemma duplicate_ids_counted_once :
  length [Scenario.paris; Scenario.paris_again] = 2%nat
  ∧ outcome (indexing_pipeline Scenario.providers 7
               [Scenario.paris; Scenario.paris_again] ∅)
    = Ok 1%nat.
Proof. split; vm_compute; reflexivity. Qed.

(* ===================================================================== *)
(** ** The name of the index                                              *)
(* ===================================================================== *)

#[local] Instance lab_name_inj : Inj (=) (=) (λ n, "lab-langchain-test-" +:+ str n).
Proof.
  intros m n Heq. apply (inj (String.append "lab-langchain-test-")) in Heq.
  by apply str_inj.
Qed.

Lemma index_deleted_iff_found ext draw documents (es : Cluster) :
  EsIndicesDelete (indexName draw) ∈ trace (index_documents ext draw documents es)
  ↔ is_Some (es !! indexName draw).
Proof.
  destruct (index_documents_trace ext draw documents es) as (rest & -> & Hrest).
  rewrite Forall_forall in Hrest.
  destruct (es !! indexName draw) as [old|].
  - rewrite bool_decide_eq_true_2 by eauto. split; [eauto|]. intros _.
    apply elem_of_app. right. apply elem_of_app. left. by left.
  - rewrite bool_decide_eq_false_2 by (by intros [? ?]). split; [|by intros [? ?]].
    intros [Hin|Hin]%elem_of_app; [by apply list_elem_of_singleton in Hin|].
    apply elem_of_app in Hin as [Hin|Hin]; [by apply elem_of_nil in Hin|].
    apply elem_of_cons in Hin as [?|Hin]; [done|].
    by destruct (Hrest _ Hin).
Qed.

(** C10.  The index the pipeline writes to is not determined by its inputs:
    the name is one of the 2001 pairwise different names
    [lab-langchain-test-0] ... [lab-langchain-test-2000], every one of which
    can be drawn; two runs on the same corpus and the same cluster can draw
    different names, and each then writes the index of its own name and
    leaves the other's as it was; and the index is deleted exactly when the
    drawn name is that of an index the cluster already holds. *)
Theorem index_name_is_drawn_at_random :
  (∀ draw, indexName draw ∈ (λ n, "lab-langchain-test-" +:+ str n) <$> seqZ 0 2001)
  ∧ NoDup ((λ n, "lab-langchain-test-" +:+ str n) <$> seqZ 0 2001)
  ∧ length ((λ n, "lab-langchain-test-" +:+ str n) <$> seqZ 0 2001) = 2001%nat
  ∧ (∀ n, 0 ≤ n ≤ 2000 → indexName n = "lab-langchain-test-" +:+ str n)
  ∧ indexName 0 = "lab-langchain-test-0"
  ∧ indexName 2000 = "lab-langchain-test-2000"
  ∧ (∃ draw1 draw2,
       indexName draw1 ≠ indexName draw2
       ∧ ∀ ext documents (es : Cluster) vs,
           traverse (encode ext (model_name emb_func)) (indextext <$> documents) = Ok vs →
           is_Some (cluster_of (index_documents ext draw1 documents es) !! indexName draw1)
           ∧ cluster_of (index_documents ext draw1 documents es) !! indexName draw2
             = es !! indexName draw2
           ∧ is_Some (cluster_of (index_documents ext draw2 documents es) !! indexName draw2)
           ∧ cluster_of (index_documents ext draw2 documents es) !! indexName draw1
             = es !! indexName draw1)
  ∧ (∀ ext draw documents (es : Cluster),
       EsIndicesDelete (indexName draw) ∈ trace (index_documents ext draw documents es)
       ↔ is_Some (es !! indexName draw)).
Proof.
  split; [|split; [|split; [|split; [|split; [|split; [|split]]]]]].
  - intros draw. destruct (indexName_range draw) as (n & Hn & ->).
    apply (list_elem_of_fmap_2 (λ n, "lab-langchain-test-" +:+ str n)).
    apply elem_of_seqZ. lia.
  - apply (NoDup_fmap_2 _), NoDup_seqZ.
  - by rewrite length_fmap, length_seqZ.
  - apply indexName_in_range.
  - by vm_compute.
  - by vm_compute.
  - exists 0, 2000.
    assert (indexName 0 ≠ indexName 2000) as Hne.
    { intros Heq. apply indexName_inj in Heq; lia. }
    split; [done|]. intros ext documents es vs Hvs.
    rewrite !(index_documents_run _ _ _ _ _ Hvs). unfold cluster_of. cbn [fst snd].
    rewrite !lookup_insert_eq, !lookup_insert_ne by done. eauto.
  - apply index_deleted_iff_found.
Qed.

(* ===================================================================== *)
(** ** One embedding function, one generation configuration               *)
(* ===================================================================== *)

Section ProviderClaims.
Context (ext : Externals).

(** C9.  The retriever of the chain holds the very store cell 40 indexed
    into, hence its embedding function: in any run the passages and the
    question are embedded by calls naming the same model
    ([all-MiniLM-L6-v2], the model of [emb_func]), there is no other
    embedding call, and the vector the index is searched with is the one
    that model gave for the question. *)
Theorem query_embedded_like_the_passages draw documents q (es es' : Cluster) :
  vectorstore (retriever (qa ext draw)) = knowledge_base draw
  ∧ embedding (knowledge_base draw) = emb_func
  ∧ model_name emb_func = "all-MiniLM-L6-v2"
  ∧ List.filter is_embedding_call (trace (index_documents ext draw documents es))
    = [EmbedDocuments (model_name emb_func) (indextext <$> documents)]
  ∧ List.filter is_embedding_call (trace (run_chain ext (qa ext draw) q es'))
    = [EmbedQuery (model_name emb_func) q]
  ∧ ∀ c, c ∈ trace (run_chain ext (qa ext draw) q es') →
         ∀ index qv k, c = EsSearch index qv k →
                       encode ext (model_name emb_func) q = Ok qv.
Proof.
  split; [done|split; [done|split; [done|split; [|split]]]].
  - destruct (index_documents_trace ext draw documents es) as (rest & -> & Hrest).
    assert (List.filter is_embedding_call rest = []) as Hnone.
    { induction Hrest as [|c rest [Hc _] _ IH]; simpl; [done|]. by rewrite Hc. }
    destruct (bool_decide _); simpl; by rewrite Hnone.
  - destruct (run_chain_trace ext (qa ext draw) q es') as (rest & -> & Hrest).
    assert (List.filter is_embedding_call rest = []) as Hnone.
    { induction Hrest as [|c rest [Hc _] _ IH]; simpl; [done|]. by rewrite Hc. }
    simpl. by rewrite Hnone.
  - intros c Hc index qv k ->. revert Hc. unfold_chain. unfold trace.
    cbn [qa retriever as_retriever vectorstore knowledge_base embedding index_name].
    destruct (encode ext _ q) as [qv'|] eqn:Hqv; [destruct (es' !! _) as [idx|];
      [destruct (generate ext _ _ _)|]|];
      cbn [snd app]; rewrite ?elem_of_cons, elem_of_nil;
      intros Hc; repeat (destruct Hc as [Hc|Hc]); by simplify_eq.
Qed.

(** C8.  The parameters of cell 29 ask for greedy decoding and between 1 and
    50 new tokens, and every call of the language model made for a query
    carries exactly these parameters; the call is made whenever retrieval
    succeeds. *)
Theorem generation_configuration_is_fixed draw q (es : Cluster) :
  dict_get DECODING_METHOD parameters = Some (PyStr "greedy")
  ∧ dict_get MIN_NEW_TOKENS parameters = Some (PyInt 1)
  ∧ dict_get MAX_NEW_TOKENS parameters = Some (PyInt 50)
  ∧ Forall (λ c, is_generate_call c = true →
                 ∃ prompt, c = Generate GRANITE_13B_INSTRUCT_V2 parameters prompt)
           (trace (run_chain ext (qa ext draw) q es))
  ∧ ∀ idx qv,
      es !! indexName draw = Some idx →
      encode ext (model_name emb_func) q = Ok qv →
      last (trace (run_chain ext (qa ext draw) q es))
      = Some (Generate GRANITE_13B_INSTRUCT_V2 parameters
                (stuff_prompt ext
                   (context_of ext (document_of_hit <$> knn idx qv (default_k ext))) q)).
Proof.
  split; [done|split; [done|split; [done|split]]].
  - destruct (run_chain_trace ext (qa ext draw) q es) as (rest & -> & Hrest).
    constructor; [done|].
    eapply Forall_impl; [exact Hrest|]. by intros c [_ Hc].
  - intros idx qv Hidx Hqv. unfold_chain. unfold trace.
    cbn [qa retriever as_retriever vectorstore knowledge_base embedding index_name
         llm search_k].
    rewrite Hqv, Hidx. by destruct (generate ext _ _ _).
Qed.

End ProviderClaims.

(* ===================================================================== *)
(** ** The endpoint                                                       *)
(* ===================================================================== *)

Lemma validate_QueryRequest b :
  validate Schemas.QueryRequest b = true
  ↔ ∃ fields q, b = JObj fields ∧ json_get "query" fields = Some (JStr q).
Proof.
  split.
  - destruct b as [| | | |items|fields]; try done. simpl.
    destruct (json_get "query" fields) as [[| | |q| |]|] eqn:Hq; try done.
    intros _. by exists fields, q.
  - intros (fields & q & -> & Hq). simpl. by rewrite Hq.
Qed.

Lemma request_query_Some req q :
  request_query req = Some q ↔ query_field req = Some (JStr q) ∧ q ≠ "".
Proof.
  unfold request_query, query_field.
  destruct (body req) as [b|]; [|split; [done|by intros [? _]]].
  destruct (validate Schemas.QueryRequest b) eqn:Hb.
  - apply validate_QueryRequest in Hb as (fields & q' & -> & Hq').
    simpl. rewrite Hq'.
    destruct (String.eqb_spec q' "") as [->|Hne]; split.
    + done.
    + by intros [[= <-] ?].
    + intros [= <-]. done.
    + by intros [[= <-] _].
  - split; [done|]. destruct b as [| | | |items|fields]; try by intros [? _].
    intros [Hq _]. assert (validate Schemas.QueryRequest (JObj fields) = true) as Hok.
    { apply validate_QueryRequest. eauto. }
    congruence.
Qed.

Lemma request_query_None req :
  query_field req = None ∨ query_field req = Some (JStr "") →
  request_query req = None.
Proof.
  intros Hnone. destruct (request_query req) as [q|] eqn:Hq; [|done].
  apply request_query_Some in Hq as [Hq Hne].
  destruct Hnone as [Hnone|Hnone]; congruence.
Qed.

Lemma validate_Document d : validate Schemas.Document (json_of_Document d) = true.
Proof. reflexivity. Qed.

Lemma validate_Documents ds :
  forallb (validate Schemas.Document) (json_of_Document <$> ds) = true.
Proof.
  induction ds as [|d ds IH]; [done|]. rewrite fmap_cons.
  change (validate Schemas.Document (json_of_Document d)
          && forallb (validate Schemas.Document) (json_of_Document <$> ds) = true).
  by rewrite validate_Document, IH.
Qed.

Lemma validate_QueryResponse r :
  validate Schemas.QueryResponse (json_of_QueryResponse r) = true.
Proof.
  unfold json_of_QueryResponse, Schemas.QueryResponse. simpl.
  rewrite andb_true_r. exact (validate_Documents (source_documents r)).
Qed.

Lemma validate_ErrorResponse detail :
  validate Schemas.ErrorResponse (json_of_error detail) = true.
Proof. reflexivity. Qed.

Section EndpointFacts.
Context (ext : Externals) (dep : Deployment).

Lemma post_query_unauthorized req (es : Cluster) :
  authorized dep req = false → post_query ext dep req es = (Ok unauthorized, es, []).
Proof. intros Hauth. unfold post_query. by rewrite Hauth. Qed.

Lemma post_query_rejected req (es : Cluster) :
  authorized dep req = true → request_query req = None →
  post_query ext dep req es = (Ok rejected, es, []).
Proof. intros Hauth Hq. unfold post_query. by rewrite Hauth, Hq. Qed.

Lemma post_query_success req q (es : Cluster) resp :
  authorized dep req = true → request_query req = Some q →
  outcome (run_chain ext (chain dep) q es) = Ok resp →
  post_query ext dep req es
  = (Ok (success resp), es, trace (run_chain ext (chain dep) q es)).
Proof.
  intros Hauth Hq Hresp. unfold post_query. rewrite Hauth, Hq. simpl.
  pose proof (run_chain_cluster ext (chain dep) q es) as Hes.
  unfold catch, bind, ret.
  destruct (run_chain ext (chain dep) q es) as [[r es1] t].
  unfold outcome, cluster_of, trace in *. simpl in *. subst.
  by rewrite app_nil_r.
Qed.

Lemma post_query_failure req q (es : Cluster) detail :
  authorized dep req = true → request_query req = Some q →
  outcome (run_chain ext (chain dep) q es) = Err detail →
  post_query ext dep req es
  = (Ok (server_error detail), es, trace (run_chain ext (chain dep) q es)).
Proof.
  intros Hauth Hq Hresp. unfold post_query. rewrite Hauth, Hq. simpl.
  pose proof (run_chain_cluster ext (chain dep) q es) as Hes.
  unfold catch, bind, ret.
  destruct (run_chain ext (chain dep) q es) as [[r es1] t].
  unfold outcome, cluster_of, trace in *. simpl in *. subst.
  by rewrite app_nil_r.
Qed.

End EndpointFacts.

Section EndpointClaims.
Context (ext : Externals) (dep : Deployment).

(** C1.  For every authorized request whose body carries a non-empty query,
    when the index exists and the two model providers answer, the chain
    returns a QueryResponse, the endpoint returns it with status 200, and its
    [query] field, in the dictionary as in the JSON body, is the query of the
    request, character for character. *)
Theorem query_is_returned_verbatim req q (es : Cluster) idx qv a :
  authorized dep req = true →
  query_field req = Some (JStr q) →
  q ≠ "" →
  es !! index_name (vectorstore (retriever (chain dep))) = Some idx →
  encode ext (model_name (embedding (vectorstore (retriever (chain dep))))) q = Ok qv →
  generate ext (model_id (llm (chain dep))) (params (llm (chain dep)))
    (stuff_prompt ext
       (context_of ext
          (document_of_hit <$> knn idx qv (search_k (retriever (chain dep))))) q)
  = Ok a →
  ∃ resp,
    outcome (run_chain ext (chain dep) q es) = Ok resp
    ∧ outcome (post_query ext dep req es)
      = Ok {| status := 200; content := Some (json_of_QueryResponse resp) |}
    ∧ query resp = q
    ∧ query_of (json_of_QueryResponse resp) = Some q.
Proof.
  intros Hauth Hq Hne Hidx Hqv Ha.
  assert (request_query req = Some q) as Hquery by (by apply request_query_Some).
  clear Hq. rename Hquery into Hq.
  pose proof (run_chain_run ext (chain dep) q es idx qv a Hidx Hqv Ha) as Hrun.
  eexists. split; [by rewrite Hrun|]. split; [|done].
  erewrite post_query_success; [done..|]. by rewrite Hrun.
Qed.

(** C5.  A request without the header [apikey], or with a key the
    deployment does not accept, is answered 401 without a body and without
    any call; an authorized request whose processing succeeds is answered
    200 with the QueryResponse, which satisfies its schema; one whose
    processing fails is answered 500 with a body [{detail: string}]. *)
Theorem status_of_the_answer req (es : Cluster) :
  (header "apikey" (headers req) = None
   ∨ (∃ key, header "apikey" (headers req) = Some key ∧ valid_key dep key = false) →
   post_query ext dep req es = (Ok {| status := 401; content := None |}, es, []))
  ∧ (∀ q resp,
       authorized dep req = true → request_query req = Some q →
       outcome (run_chain ext (chain dep) q es) = Ok resp →
       outcome (post_query ext dep req es)
       = Ok {| status := 200; content := Some (json_of_QueryResponse resp) |}
       ∧ validate Schemas.QueryResponse (json_of_QueryResponse resp) = true)
  ∧ (∀ q detail,
       authorized dep req = true → request_query req = Some q →
       outcome (run_chain ext (chain dep) q es) = Err detail →
       outcome (post_query ext dep req es)
       = Ok {| status := 500; content := Some (JObj [("detail", JStr detail)]) |}
       ∧ validate Schemas.ErrorResponse (JObj [("detail", JStr detail)]) = true).
Proof.
  split; [|split].
  - intros Hkey. apply post_query_unauthorized. unfold authorized, ApiKeyAuth.
    destruct Hkey as [->|(key & -> & Hkey)]; done.
  - intros q resp Hauth Hq Hresp. split; [|apply validate_QueryResponse].
    by erewrite post_query_success.
  - intros q detail Hauth Hq Hresp. split; [|done].
    by erewrite post_query_failure.
Qed.

(** C2.  A request whose [query] field is the empty string or is missing
    (no body, a body that is not an object, or an object without the key) is
    turned down, with 401 or as a client error, without a body, without any
    call to a provider (embedding, retrieval or generation) and without
    touching the cluster: an empty query never reaches the language model. *)
Theorem empty_or_missing_query_is_rejected req (es : Cluster) :
  query_field req = None ∨ query_field req = Some (JStr "") →
  ∃ r, post_query ext dep req es = (Ok r, es, [])
       ∧ 400 ≤ status r < 500
       ∧ content r = None.
Proof.
  intros Hq%request_query_None.
  destruct (authorized dep req) eqn:Hauth.
  - exists rejected. by rewrite post_query_rejected.
  - exists unauthorized. by rewrite post_query_unauthorized.
Qed.

(** C7.  For an authorized query against an index that exists and holds no
    document, the query not being empty, when the two model providers
    answer, the chain retrieves
    nothing, calls the language model on the prompt built from the empty
    context, and answers with that result and no source document; the
    endpoint returns it with status 200. *)
Theorem empty_index_is_answered req q (es : Cluster) qv a :
  authorized dep req = true →
  query_field req = Some (JStr q) →
  q ≠ "" →
  es !! index_name (vectorstore (retriever (chain dep))) = Some ∅ →
  encode ext (model_name (embedding (vectorstore (retriever (chain dep))))) q = Ok qv →
  generate ext (model_id (llm (chain dep))) (params (llm (chain dep)))
    (stuff_prompt ext "" q) = Ok a →
  run_chain ext (chain dep) q es
  = (Ok {| query := q; result := a; source_documents := [] |},
     es,
     [EmbedQuery (model_name (embedding (vectorstore (retriever (chain dep))))) q;
      EsSearch (index_name (vectorstore (retriever (chain dep)))) qv
        (search_k (retriever (chain dep)));
      Generate (model_id (llm (chain dep))) (params (llm (chain dep)))
        (stuff_prompt ext "" q)])
  ∧ outcome (post_query ext dep req es)
    = Ok {| status := 200;
            content := Some (JObj [("query", JStr q);
                                   ("result", JStr a);
                                   ("source_documents", JArr [])]) |}.
Proof.
  intros Hauth Hfield Hne Hidx Hqv Ha.
  assert (request_query req = Some q) as Hq by (by apply request_query_Some).
  assert (knn ∅ qv (search_k (retriever (chain dep))) = []) as Hnone.
  { unfold knn. rewrite map_to_list_empty. by destruct (search_k _). }
  assert (run_chain ext (chain dep) q es
          = (Ok {| query := q; result := a; source_documents := [] |}, es,
             [EmbedQuery (model_name (embedding (vectorstore (retriever (chain dep))))) q;
              EsSearch (index_name (vectorstore (retriever (chain dep)))) qv
                (search_k (retriever (chain dep)));
              Generate (model_id (llm (chain dep))) (params (llm (chain dep)))
                (stuff_prompt ext "" q)])) as Hrun.
  { rewrite (run_chain_run ext (chain dep) q es ∅ qv a Hidx Hqv);
      rewrite Hnone; [|done]. by destruct (return_source_documents _). }
  split; [done|].
  rewrite (post_query_success ext dep req q es
             {| query := q; result := a; source_documents := [] |} Hauth Hq);
    [done|by rewrite Hrun].
Qed.

End EndpointClaims.

Section RankingClaims.
Context (ext : Externals).

(** C4.  Every QueryResponse the chain produces lists at most [k] source
    documents, [k] being the number the retriever asks for; they are
    documents of the index, each scored by the dot product of its vector
    with the vector the embedding model gave for the query, in descending
    order of that score. *)
Theorem source_documents_are_ranked chain q (es : Cluster) resp :
  outcome (run_chain ext chain q es) = Ok resp →
  ∃ (idx : Index) qv hits,
    es !! index_name (vectorstore (retriever chain)) = Some idx
    ∧ encode ext (model_name (embedding (vectorstore (retriever chain)))) q = Ok qv
    ∧ source_documents resp = document_of_hit <$> hits
    ∧ (length (source_documents resp) ≤ search_k (retriever chain))%nat
    ∧ Forall (λ h, idx !! hit_id h = Some (hit_source h)
                   ∧ hit_score h = dot qv (es_vector (hit_source h))) hits
    ∧ StronglySorted (λ h1 h2, Qle (hit_score h2) (hit_score h1)) hits.
Proof.
  intros (idx & qv & a & Hidx & Hqv & _ & ->)%run_chain_Ok.
  exists idx, qv. cbn [source_documents].
  destruct (return_source_documents chain).
  - exists (knn idx qv (search_k (retriever chain))).
    rewrite length_fmap.
    split; [done|split; [done|split; [done|split; [apply knn_length|split]]]].
    + apply knn_hits.
    + apply knn_sorted.
  - exists []. simpl.
    split; [done|split; [done|split; [done|split; [lia|split; constructor]]]].
Qed.

End RankingClaims.

(* ===================================================================== *)
(** ** The claims on the two-passage corpus                               *)
(* ===================================================================== *)

Lemma query_is_returned_verbatim_witness :
  ∃ resp,
    outcome (post_query Scenario.providers Scenario.deployment
               (Scenario.ask Scenario.question)
               Scenario.indexed)
    = Ok {| status := 200; content := Some (json_of_QueryResponse resp) |}
    ∧ query resp = Scenario.question.
Proof.
  edestruct (query_is_returned_verbatim Scenario.providers Scenario.deployment
               (Scenario.ask Scenario.question)
               Scenario.question Scenario.indexed)
    as (resp & _ & Hpost & Hquery & _);
    [first [done | vm_compute; reflexivity] ..|].
  exists resp. split; assumption.
Defined.

Lemma status_of_the_answer_witness :
  post_query Scenario.providers Scenario.deployment
    (Scenario.request None (Some (JObj [("query", JStr Scenario.question)])))
    Scenario.indexed
  = (Ok {| status := 401; content := None |}, Scenario.indexed, [])
  ∧ post_query Scenario.providers Scenario.deployment
      (Scenario.request (Some "guess") (Some (JObj [("query", JStr Scenario.question)])))
      Scenario.indexed
    = (Ok {| status := 401; content := None |}, Scenario.indexed, [])
  ∧ (∃ resp,
       outcome (post_query Scenario.providers Scenario.deployment
                  (Scenario.ask Scenario.question) Scenario.indexed)
       = Ok {| status := 200; content := Some (json_of_QueryResponse resp) |})
  ∧ outcome (post_query Scenario.providers_down Scenario.deployment
               (Scenario.ask Scenario.question) Scenario.indexed)
    = Ok {| status := 500;
            content := Some (JObj [("detail", JStr "watsonx.ai is unreachable")]) |}.
Proof.
  split; [|split; [|split]].
  - apply (proj1 (status_of_the_answer Scenario.providers Scenario.deployment _ _)).
    left. reflexivity.
  - apply (proj1 (status_of_the_answer Scenario.providers Scenario.deployment _ _)).
    right. exists "guess". split; reflexivity.
  - eexists.
    eapply (proj1 (proj2 (status_of_the_answer Scenario.providers Scenario.deployment
                            (Scenario.ask Scenario.question) Scenario.indexed)));
      vm_compute; reflexivity.
  - eapply (proj2 (proj2 (status_of_the_answer Scenario.providers_down Scenario.deployment
                            (Scenario.ask Scenario.question) Scenario.indexed)));
      vm_compute; reflexivity.
Defined.

Lemma empty_or_missing_query_is_rejected_witness :
  query_field (Scenario.ask "") = Some (JStr "")
  ∧ (∃ r,
       post_query Scenario.providers Scenario.deployment (Scenario.ask "")
         Scenario.indexed
       = (Ok r, Scenario.indexed, [])
       ∧ 400 ≤ status r < 500
       ∧ content r = None)
  ∧ query_field (Scenario.request (Some "secret") (Some (JObj [("question", JStr "?")])))
    = None
  ∧ ∃ r,
      post_query Scenario.providers Scenario.deployment
        (Scenario.request (Some "secret") (Some (JObj [("question", JStr "?")])))
        Scenario.indexed
      = (Ok r, Scenario.indexed, [])
      ∧ 400 ≤ status r < 500
      ∧ content r = None.
Proof.
  split; [reflexivity|]. split.
  - apply (empty_or_missing_query_is_rejected Scenario.providers Scenario.deployment).
    right. reflexivity.
  - split; [reflexivity|].
    apply (empty_or_missing_query_is_rejected Scenario.providers Scenario.deployment).
    left. reflexivity.
Defined.

Lemma empty_index_is_answered_witness :
  Scenario.indexed_nothing !! indexName 7 = Some ∅
  ∧ ∃ a,
      outcome (post_query Scenario.providers Scenario.deployment
                 (Scenario.ask Scenario.question) Scenario.indexed_nothing)
      = Ok {| status := 200;
              content := Some (JObj [("query", JStr Scenario.question);
                                     ("result", JStr a);
                                     ("source_documents", JArr [])]) |}.
Proof.
  assert (Scenario.indexed_nothing !! indexName 7 = Some ∅) as Hidx
    by (vm_compute; reflexivity).
  assert (Scenario.question ≠ "") as Hne by discriminate.
  split; [exact Hidx|]. eexists.
  eapply (proj2 (empty_index_is_answered Scenario.providers Scenario.deployment
                   (Scenario.ask Scenario.question) Scenario.question
                   Scenario.indexed_nothing _ _ eq_refl eq_refl Hne Hidx eq_refl eq_refl)).
Defined.

Lemma source_documents_are_ranked_witness :
  ∃ resp hits,
    outcome (run_chain Scenario.providers (qa Scenario.providers 7) Scenario.question
               Scenario.indexed) = Ok resp
    ∧ source_documents resp = document_of_hit <$> hits
    ∧ (length (source_documents resp) ≤ 4)%nat
    ∧ StronglySorted (λ h1 h2, Qle (hit_score h2) (hit_score h1)) hits.
Proof.
  assert (∃ resp, outcome (run_chain Scenario.providers (qa Scenario.providers 7)
                             Scenario.question Scenario.indexed) = Ok resp)
    as [resp Hresp] by (eexists; vm_compute; reflexivity).
  destruct (source_documents_are_ranked Scenario.providers _ _ _ _ Hresp)
    as (idx & qv & hits & _ & _ & Hdocs & Hlen & _ & Hsorted).
  exists resp, hits. split; [exact Hresp|]. split; [exact Hdocs|].
  split; [exact Hlen|exact Hsorted].
Defined.

(** The scenario of the specification: on the two-passage corpus, the
    question about France is answered from both passages, the one about
    Paris first. *)
Example paris_is_ranked_first :
  (meta_id ∘ metadata <$>
   match outcome (run_chain Scenario.providers (qa Scenario.providers 7)
                    Scenario.question Scenario.indexed) with
   | Ok resp => source_documents resp
   | Err _ => []
   end) = [1; 2].
Proof. vm_compute. reflexivity. Qed.

Lemma generation_configuration_witness :
  ∃ prompt,
    last (trace (run_chain Scenario.providers (qa Scenario.providers 7)
                   Scenario.question Scenario.indexed))
    = Some (Generate GRANITE_13B_INSTRUCT_V2
              [(DECODING_METHOD, PyStr "greedy");
               (MIN_NEW_TOKENS, PyInt 1);
               (MAX_NEW_TOKENS, PyInt 50)]
              prompt).
Proof.
  eexists.
  eapply (proj2 (proj2 (proj2 (proj2
    (generation_configuration_is_fixed Scenario.providers 7 Scenario.question
       Scenario.indexed)))));
    vm_compute; reflexivity.
Defined.

Lemma query_embedded_like_the_passages_witness :
  List.filter is_embedding_call
    (trace (notebook Scenario.providers 7 Scenario.corpus [Scenario.question] ∅))
  = [EmbedDocuments "all-MiniLM-L6-v2" (indextext <$> Scenario.corpus);
     EmbedQuery "all-MiniLM-L6-v2" Scenario.question]
  ∧ encode Scenario.providers "all-MiniLM-L6-v2" Scenario.question = Ok [1%Q; 0%Q].
Proof.
  split; [vm_compute; reflexivity|].
  eapply (proj2 (proj2 (proj2 (proj2 (proj2
    (query_embedded_like_the_passages Scenario.providers 7 Scenario.corpus
       Scenario.question ∅ Scenario.indexed)))))
    (EsSearch (indexName 7) [1%Q; 0%Q] 4));
    [|reflexivity].
  apply (list_elem_of_lookup_2 _ 1%nat). vm_compute. reflexivity.
Defined.

Lemma index_name_witness :
  indexName 2001 = "lab-langchain-test-0"
  ∧ indexName 1999 = "lab-langchain-test-1999"
  ∧ (EsIndicesDelete (indexName 7)
       ∈ trace (index_documents Scenario.providers 7 Scenario.corpus Scenario.indexed))
  ∧ ¬ (EsIndicesDelete (indexName 8)
         ∈ trace (index_documents Scenario.providers 8 Scenario.corpus Scenario.indexed)).
Proof.
  destruct index_name_is_drawn_at_random
    as (_ & _ & _ & Hrange & _ & _ & _ & Hdelete).
  split; [by vm_compute|]. split; [apply Hrange; lia|].
  split.
  - apply Hdelete. eexists. vm_compute. reflexivity.
  - rewrite Hdelete. vm_compute. by intros [? ?].
Defined.

(* ===================================================================== *)
(** ** Cell 12: downloading the question files                            *)
(* ===================================================================== *)

Section DownloadFacts.
Context (web : string → Result string).

Lemma download_if_missing_present url filename (fs : FileSystem) :
  is_Some (fs !! filename) →
  download_if_missing web url filename fs = (Ok tt, fs, []).
Proof.
  intros Hfile. unfold download_if_missing, isfile.
  by rewrite bool_decide_eq_true_2.
Qed.

Lemma download_if_missing_absent url filename (fs : FileSystem) :
  fs !! filename = None →
  download_if_missing web url filename fs = wget_download web url filename fs.
Proof.
  intros Hfile. unfold download_if_missing, isfile.
  rewrite bool_decide_eq_false_2; [done|]. rewrite Hfile. by intros [? ?].
Qed.

Lemma download_if_missing_keeps url filename (fs : FileSystem) name content :
  fs !! name = Some content →
  (download_if_missing web url filename fs).1.2 !! name = Some content.
Proof.
  intros Hname. destruct (fs !! filename) as [old|] eqn:Hfile.
  - by rewrite download_if_missing_present.
  - rewrite download_if_missing_absent by done. unfold wget_download.
    destruct (web url); simpl; [|done].
    rewrite lookup_insert_ne; [done|congruence].
Qed.

Lemma download_if_missing_requests url filename (fs : FileSystem) u :
  u ∈ (download_if_missing web url filename fs).2 →
  u = url ∧ fs !! filename = None.
Proof.
  destruct (fs !! filename) as [old|] eqn:Hfile.
  - rewrite download_if_missing_present by done. by intros ?%elem_of_nil.
  - rewrite download_if_missing_absent by done. unfold wget_download.
    destruct (web url); simpl; by intros ->%list_elem_of_singleton.
Qed.

Lemma download_if_missing_Ok url filename (fs : FileSystem) :
  (download_if_missing web url filename fs).1.1 = Ok tt →
  is_Some ((download_if_missing web url filename fs).1.2 !! filename).
Proof.
  destruct (fs !! filename) as [old|] eqn:Hfile.
  - rewrite download_if_missing_present by done. simpl. by rewrite Hfile.
  - rewrite download_if_missing_absent by done. unfold wget_download.
    destruct (web url); simpl; [|done]. by rewrite lookup_insert_eq.
Qed.

(** X1.  Cell 12 never changes or removes a file that is there: whatever a
    name held before the cell, it holds after it, whether or not the
    downloads succeed; and a URL is requested only for a name that held no
    file. *)
Theorem download_keeps_existing_files (fs : FileSystem) name content :
  fs !! name = Some content →
  (download_questions web fs).1.2 !! name = Some content
  ∧ (name = questions_test_filename →
     questions_test_url ∉ (download_questions web fs).2)
  ∧ (name = questions_train_filename →
     questions_train_url ∉ (download_questions web fs).2).
Proof.
  intros Hname. unfold download_questions.
  pose proof (download_if_missing_keeps questions_test_url questions_test_filename
                fs name content Hname) as Hkeep1.
  pose proof (download_if_missing_requests questions_test_url questions_test_filename fs)
    as Hreq1.
  destruct (download_if_missing web questions_test_url questions_test_filename fs)
    as [[[[]|detail] fs1] t1]; simpl in *.
  - pose proof (download_if_missing_keeps questions_train_url questions_train_filename
                  fs1 name content Hkeep1) as Hkeep2.
    pose proof (download_if_missing_requests questions_train_url
                  questions_train_filename fs1) as Hreq2.
    destruct (download_if_missing web questions_train_url questions_train_filename fs1)
      as [[r fs2] t2]; simpl in *.
    split; [done|]. split; intros -> [Hin|Hin]%elem_of_app.
    + apply Hreq1 in Hin as [_ Hnone]. congruence.
    + by apply Hreq2 in Hin as [? _].
    + by apply Hreq1 in Hin as [? _].
    + apply Hreq2 in Hin as [_ Hnone]. congruence.
  - split; [done|]. split; intros -> Hin.
    + apply Hreq1 in Hin as [_ Hnone]. congruence.
    + by apply Hreq1 in Hin as [? _].
Qed.

Lemma download_questions_Ok (fs fs' : FileSystem) t :
  download_questions web fs = (Ok tt, fs', t) →
  is_Some (fs' !! questions_test_filename)
  ∧ is_Some (fs' !! questions_train_filename).
Proof.
  unfold download_questions.
  pose proof (download_if_missing_Ok questions_test_url questions_test_filename fs)
    as Hok1.
  destruct (download_if_missing web questions_test_url questions_test_filename fs)
    as [[[[]|detail] fs1] t1]; simpl in *; [|done].
  specialize (Hok1 eq_refl) as [c1 Hc1].
  pose proof (download_if_missing_Ok questions_train_url questions_train_filename fs1)
    as Hok2.
  pose proof (download_if_missing_keeps questions_train_url questions_train_filename
                fs1 _ _ Hc1) as Hkeep.
  destruct (download_if_missing web questions_train_url questions_train_filename fs1)
    as [[r fs2] t2]; simpl in *.
  intros [= -> <- <-]. split; [eauto|by apply Hok2].
Qed.

(** X2.  Once cell 12 has succeeded, both question files are there, and
    running the cell again requests nothing and changes nothing. *)
Theorem download_questions_again (fs : FileSystem) :
  (download_questions web fs).1.1 = Ok tt →
  is_Some ((download_questions web fs).1.2 !! questions_test_filename)
  ∧ is_Some ((download_questions web fs).1.2 !! questions_train_filename)
  ∧ download_questions web (download_questions web fs).1.2
    = (Ok tt, (download_questions web fs).1.2, []).
Proof.
  destruct (download_questions web fs) as [[r fs'] t] eqn:Hrun. simpl.
  intros ->. apply download_questions_Ok in Hrun as [Htest Htrain].
  split; [done|]. split; [done|].
  unfold download_questions.
  rewrite download_if_missing_present by done.
  by rewrite download_if_missing_present.
Qed.

End DownloadFacts.

Lemma download_keeps_existing_files_witness :
  Fixtures.edited !! questions_test_filename = Some "my own questions"
  ∧ (download_questions Fixtures.web Fixtures.edited).1.2 !! questions_test_filename
    = Some "my own questions".
Proof.
  assert (Fixtures.edited !! questions_test_filename = Some "my own questions") as Hfile
    by (vm_compute; reflexivity).
  split; [exact Hfile|].
  exact (proj1 (download_keeps_existing_files Fixtures.web Fixtures.edited _ _ Hfile)).
Defined.

Lemma download_questions_again_witness :
  (download_questions Fixtures.web ∅).1.1 = Ok tt
  ∧ download_questions Fixtures.web (download_questions Fixtures.web ∅).1.2
    = (Ok tt, (download_questions Fixtures.web ∅).1.2, []).
Proof.
  assert ((download_questions Fixtures.web ∅).1.1 = Ok tt) as Hok
    by (vm_compute; reflexivity).
  split; [exact Hok|].
  exact (proj2 (proj2 (download_questions_again Fixtures.web ∅ Hok))).
Defined.

(* ===================================================================== *)
(** ** Cell 33: environment first, prompts otherwise                      *)
(* ===================================================================== *)

(** X3.  Cell 33 asks the user exactly for the settings the environment
    does not hold: a prompt is shown if and only if its variable is unset,
    and a setting whose variable is set has the value of the variable,
    whatever the user would have typed. *)
Theorem prompts_only_for_missing_settings (environ : gmap string string) user :
  (∀ ask, ask ∈ (connection_settings environ user).2 ↔
          (ask = ask_esapikey ∧ environ !! "ESAPIKEY" = None)
          ∨ (ask = ask_eshost ∧ environ !! "ESHOST" = None)
          ∨ (ask = ask_esport ∧ environ !! "ESPORT" = None))
  ∧ (∀ v, environ !! "ESAPIKEY" = Some v → esapikey (connection_settings environ user).1 = v)
  ∧ (∀ v, environ !! "ESHOST" = Some v → eshost (connection_settings environ user).1 = v)
  ∧ (∀ v, environ !! "ESPORT" = Some v → esport (connection_settings environ user).1 = v).
Proof.
  unfold connection_settings, environ_or_ask.
  split; [|split; [|split]]; [|by intros v -> ..].
  intros ask.
  destruct (environ !! "ESAPIKEY"), (environ !! "ESHOST"), (environ !! "ESPORT");
    simpl; rewrite ?elem_of_cons, ?elem_of_nil;
    (split; [intros Hin; repeat (destruct Hin as [Hin|Hin]); try done; subst; auto
            |intros [[-> ?]|[[-> ?]|[-> ?]]]; try done; auto]).
Qed.

Lemma prompts_only_for_missing_settings_witness :
  eshost (connection_settings Fixtures.environ Fixtures.user).1 = "es.example.org"
  ∧ ask_eshost ∉ (connection_settings Fixtures.environ Fixtures.user).2.
Proof.
  destruct (prompts_only_for_missing_settings Fixtures.environ Fixtures.user)
    as (Hasked & _ & Hhost & _).
  split; [apply Hhost; vm_compute; reflexivity|].
  rewrite Hasked. vm_compute. intros [[? ?]|[[? ?]|[? ?]]]; discriminate.
Defined.

(* ===================================================================== *)
(** ** Cell 35: the fingerprint                                           *)
(* ===================================================================== *)

Lemma split_cons sep s : ∃ piece pieces, split sep s = piece :: pieces.
Proof.
  induction s as [|c s (piece & pieces & IH)]; simpl; [by eexists _, _|].
  destruct (Ascii.eqb c sep); [by eexists _, _|].
  rewrite IH. by eexists _, _.
Qed.

Lemma split_without sep s :
  sep ∉ list_ascii_of_string s → split sep s = [s].
Proof.
  induction s as [|c s IH]; simpl; [done|].
  intros [Hne Hs]%not_elem_of_cons.
  destruct (Ascii.eqb_spec c sep) as [->|_]; [done|].
  by rewrite IH.
Qed.

Lemma split_with sep s :
  sep ∈ list_ascii_of_string s →
  ∃ piece piece' pieces, split sep s = piece :: piece' :: pieces.
Proof.
  induction s as [|c s IH]; simpl; [by intros ?%elem_of_nil|].
  intros Hin. destruct (Ascii.eqb_spec c sep) as [->|Hne].
  - destruct (split_cons sep s) as (piece & pieces & ->). by eexists _, _, _.
  - apply elem_of_cons in Hin as [?|Hin]; [done|].
    destruct (IH Hin) as (piece & piece' & pieces & ->). by eexists _, _, _.
Qed.

Lemma split_pieces sep s :
  Forall (λ piece, sep ∉ list_ascii_of_string piece) (split sep s).
Proof.
  induction s as [|c s IH]; simpl.
  - repeat constructor. by intros ?%elem_of_nil.
  - destruct (Ascii.eqb_spec c sep) as [->|Hne].
    + constructor; [by intros ?%elem_of_nil|done].
    + destruct (split sep s) as [|piece pieces].
      * repeat constructor. simpl. by intros [?|?%elem_of_nil]%elem_of_cons.
      * apply Forall_cons in IH as [Hpiece Hpieces].
        constructor; [|done]. simpl. by intros [?|?]%elem_of_cons.
Qed.

Lemma split_app sep a b :
  sep ∉ list_ascii_of_string a →
  split sep (a +:+ String sep b) = a :: split sep b.
Proof.
  induction a as [|c a IH]; simpl.
  - intros _. by rewrite Ascii.eqb_refl.
  - intros [Hne Ha]%not_elem_of_cons.
    destruct (Ascii.eqb_spec c sep) as [->|_]; [done|].
    by rewrite IH.
Qed.

(** X4.  Cell 35 yields a fingerprint exactly when the command printed at
    least one line and the first line holds an equals sign; otherwise it
    raises IndexError.  The fingerprint it yields holds no equals sign. *)
Theorem fingerprint_needs_a_separator lines :
  ((∃ value, fingerprint lines = Ok value) ↔
   ∃ line rest, lines = line :: rest ∧ "="%char ∈ list_ascii_of_string line)
  ∧ (∀ detail, fingerprint lines = Err detail → detail = IndexError)
  ∧ (∀ value, fingerprint lines = Ok value → "="%char ∉ list_ascii_of_string value).
Proof.
  destruct lines as [|line rest]; simpl.
  { split; [|split]; [|by intros ? [= <-]|done].
    split; [by intros [? ?]|by intros (? & ? & ? & _)]. }
  pose proof (split_pieces "=" line) as Hpieces.
  destruct (decide ("="%char ∈ list_ascii_of_string line)) as [Hin|Hnotin].
  - destruct (split_with "=" line Hin) as (piece & value & pieces & Hsplit).
    rewrite Hsplit in *. split; [|split]; [|done|].
    + split; [intros _; by exists line, rest|by eexists].
    + intros ? [= <-]. apply Forall_cons in Hpieces as [_ Hpieces].
      by apply Forall_cons in Hpieces as [? _].
  - rewrite (split_without "=" line Hnotin). split; [|split]; [|by intros ? [= <-]|done].
    split; [by intros [? ?]|]. intros (line' & rest' & [= <- <-] & Hin). done.
Qed.

(** X5.  On a first line [label=value], with no equals sign in the label or
    in the value, cell 35 yields the value; the lines after the first, and
    whatever follows a second equals sign, do not matter. *)
Theorem fingerprint_of_label_value label value rest :
  "="%char ∉ list_ascii_of_string label →
  "="%char ∉ list_ascii_of_string value →
  fingerprint ((label +:+ "=" +:+ value) :: rest) = Ok value
  ∧ ∀ more, fingerprint ((label +:+ "=" +:+ value +:+ "=" +:+ more) :: rest) = Ok value.
Proof.
  intros Hlabel Hvalue. unfold fingerprint. split.
  - change ("=" +:+ value) with (String "=" value).
    by rewrite (split_app "=" label value Hlabel), (split_without "=" value Hvalue).
  - intros more.
    change ("=" +:+ value +:+ "=" +:+ more) with (String "=" (value +:+ String "=" more)).
    by rewrite (split_app "=" label _ Hlabel), (split_app "=" value more Hvalue).
Qed.

Lemma fingerprint_of_label_value_witness :
  fingerprint ["sha256 Fingerprint=5A:3B:7C"; ""] = Ok "5A:3B:7C".
Proof.
  apply (fingerprint_of_label_value "sha256 Fingerprint" "5A:3B:7C" [""]);
    apply (bool_decide_unpack _); vm_compute; exact I.
Defined.

(* ===================================================================== *)
(** ** Cells 40 to 46: what indexing leaves in the cluster                *)
(* ===================================================================== *)

Lemma dom_foldl_upsert (idx : Index) requests :
  dom (foldl upsert idx requests) =@{gset string} dom idx ∪ list_to_set requests.*1.
Proof.
  revert idx. induction requests as [|[k d] rs IH]; intros idx; simpl.
  - by rewrite (right_id_L ∅ (∪)).
  - rewrite IH. unfold upsert. simpl. rewrite dom_insert_L.
    by rewrite (comm_L (∪) {[k]} (dom idx)), (assoc_L (∪)).
Qed.

Lemma remove_dups_fmap_inj {A B} `{EqDecision A, EqDecision B}
    (f : A → B) `{!Inj (=) (=) f} (l : list A) :
  remove_dups (f <$> l) = f <$> remove_dups l.
Proof.
  induction l as [|x l IH]; simpl; [done|].
  destruct (decide_rel elem_of x l) as [Hin|Hnotin]; simpl;
    match goal with
    | |- context [decide_rel ?R ?a ?b] => destruct (decide_rel R a b) as [Hin'|Hnotin']
    end; rewrite ?IH; try done.
  - destruct Hnotin'. by apply list_elem_of_fmap_2.
  - apply list_elem_of_fmap in Hin' as (y & Hxy & Hy).
    apply (inj f) in Hxy. by subst.
  - f_equal. exact IH.
Qed.

Lemma size_list_to_set_remove_dups `{Countable A} (l : list A) :
  size (list_to_set l : gset A) = length (remove_dups l).
Proof.
  rewrite <-(size_list_to_set (C:=gset A) (remove_dups l)) by apply NoDup_remove_dups.
  f_equal. apply set_eq. intros x.
  by rewrite !elem_of_list_to_set, elem_of_remove_dups.
Qed.

Lemma remove_dups_length_le `{EqDecision A} (l : list A) :
  (length (remove_dups l) ≤ length l)%nat.
Proof.
  induction l as [|x l IH]; simpl; [done|].
  destruct (decide_rel elem_of x l); simpl; lia.
Qed.

Section ClusterFacts.
Context (ext : Externals).

(** X6.  Cell 40 reads and writes the index of the drawn name only: every
    index of another name is after the cell what it was before, whether the
    embedding model answers or fails.  An index left by an earlier run under
    another name is therefore never removed. *)
Theorem indexing_leaves_other_indices draw documents (es : Cluster) name :
  name ≠ indexName draw →
  cluster_of (index_documents ext draw documents es) !! name = es !! name.
Proof.
  intros Hname.
  destruct (traverse (encode ext (model_name emb_func)) (indextext <$> documents))
    as [vs|detail] eqn:Hvs.
  - rewrite (index_documents_run ext draw documents es vs Hvs).
    unfold cluster_of. cbn [fst snd]. by rewrite lookup_insert_ne.
  - rewrite (index_documents_fail ext draw documents es detail Hvs).
    unfold cluster_of. cbn [fst snd]. by rewrite lookup_delete_ne.
Qed.

(** X7.  When the embedding model fails, the index of the drawn name is
    already deleted and nothing is written: the pipeline raises the model's
    error without counting, and the cluster holds no index of that name,
    whatever it held under it before. *)
Theorem failed_indexing_loses_the_index draw documents (es : Cluster) detail :
  traverse (encode ext (model_name emb_func)) (indextext <$> documents) = Err detail →
  outcome (indexing_pipeline ext draw documents es) = Err detail
  ∧ cluster_of (indexing_pipeline ext draw documents es) !! indexName draw = None
  ∧ EsCount (indexName draw) ∉ trace (indexing_pipeline ext draw documents es).
Proof.
  intros Hvs. unfold indexing_pipeline, bind.
  rewrite (index_documents_fail ext draw documents es detail Hvs).
  unfold outcome, cluster_of, trace. cbn [fst snd].
  split; [done|]. split; [by rewrite lookup_delete_eq|].
  destruct (bool_decide _); cbn [app];
    rewrite ?elem_of_cons, elem_of_nil; intros Hin;
    repeat (destruct Hin as [Hin|Hin]); done.
Qed.

(** X8.  For every corpus the embedding model answers for, the count of
    cell 44 is the number of distinct passage ids, which is at most the
    number of passages. *)
Theorem document_count_is_the_number_of_ids draw documents (es : Cluster) vs :
  traverse (encode ext (model_name emb_func)) (indextext <$> documents) = Ok vs →
  outcome (indexing_pipeline ext draw documents es)
  = Ok (size (list_to_set (id <$> documents) : gset Z))
  ∧ (size (list_to_set (id <$> documents) : gset Z) ≤ length documents)%nat.
Proof.
  intros Hvs. rewrite (indexing_pipeline_run ext draw documents es vs Hvs).
  pose proof (traverse_length _ _ _ Hvs) as Hlen. rewrite length_fmap in Hlen.
  unfold outcome. cbn [fst]. rewrite size_list_to_set_remove_dups. split.
  - f_equal. rewrite <-size_dom, dom_foldl_upsert, dom_empty_L, (left_id_L ∅ _).
    rewrite indexed_document_keys by done.
    rewrite size_list_to_set_remove_dups, (list_fmap_compose id str).
    by rewrite (remove_dups_fmap_inj str), length_fmap.
  - etrans; [apply remove_dups_length_le|]. by rewrite length_fmap.
Qed.

(** X9.  Cell 46 draws a number between 0 and the number of passages minus
    one and reads the document of that id.  On an empty corpus the draw
    itself raises.  After cell 40 it finds a document exactly when the
    number drawn is the id of a passage, and the document it finds carries
    that id: it cannot fail when the ids fill 0 to n-1, and can when they do
    not. *)
Theorem sample_document_found_iff draw pick documents (es : Cluster) vs :
  traverse (encode ext (model_name emb_func)) (indextext <$> documents) = Ok vs →
  (documents = [] → ∀ es', sample_document draw pick documents es' = Err empty_range)
  ∧ (documents ≠ [] →
     ((∃ d, sample_document draw pick documents
              (cluster_of (index_documents ext draw documents es)) = Ok d)
      ↔ ∃ p, p ∈ documents ∧ id p = randint 0 (Z.of_nat (length documents) - 1) pick)
     ∧ ∀ d, sample_document draw pick documents
              (cluster_of (index_documents ext draw documents es)) = Ok d →
            meta_id (es_metadata d) = randint 0 (Z.of_nat (length documents) - 1) pick).
Proof.
  intros Hvs. split; [by intros ->|]. intros Hne.
  pose proof (traverse_length _ _ _ Hvs) as Hlen. rewrite length_fmap in Hlen.
  unfold sample_document.
  rewrite decide_False by (destruct documents; [done|simpl; lia]).
  rewrite (index_documents_run ext draw documents es vs Hvs).
  unfold cluster_of, es_get. cbn [fst snd]. rewrite lookup_insert_eq.
  set (n := randint 0 (Z.of_nat (length documents) - 1) pick).
  destruct (foldl upsert ∅ (zip_with indexed_document documents vs) !! str n)
    as [d|] eqn:Hd.
  - apply lookup_foldl_upsert_Some in Hd as [Hin|Hempty];
      [|by rewrite lookup_empty in Hempty].
    apply elem_of_lookup_zip_with_1 in Hin as (i & p & v & Heq & Hp & _).
    injection Heq as Hkey ->. apply str_inj in Hkey.
    split; [|by intros ? [= <-]].
    split; [intros _|by eauto]. exists p. split; [by eapply list_elem_of_lookup_2|done].
  - split; [|done]. split; [by intros [? ?]|]. intros (p & Hp & Hid).
    destruct (lookup_foldl_upsert_key ∅ (zip_with indexed_document documents vs)
                (str n)) as (d & Hd' & _); [|congruence].
    rewrite indexed_document_keys by done. rewrite <-Hid.
    by apply (list_elem_of_fmap_2 (λ p, str (id p))).
Qed.

End ClusterFacts.

Lemma indexing_leaves_other_indices_witness :
  "lab-langchain-test-7" ≠ indexName 8
  ∧ cluster_of (index_documents Scenario.providers 8 Scenario.corpus Scenario.indexed)
      !! "lab-langchain-test-7"
    = Scenario.indexed !! "lab-langchain-test-7".
Proof.
  assert ("lab-langchain-test-7" ≠ indexName 8) as Hname by (by vm_compute).
  split; [exact Hname|].
  exact (indexing_leaves_other_indices Scenario.providers 8 Scenario.corpus
           Scenario.indexed _ Hname).
Defined.

Lemma failed_indexing_loses_the_index_witness :
  is_Some (Scenario.indexed !! indexName 7)
  ∧ cluster_of (indexing_pipeline Fixtures.providers_without_embeddings 7
                  Scenario.corpus Scenario.indexed) !! indexName 7
    = None.
Proof.
  split; [eexists; vm_compute; reflexivity|].
  assert (traverse (encode Fixtures.providers_without_embeddings (model_name emb_func))
            (indextext <$> Scenario.corpus)
          = Err "sentence_transformers is not installed") as Hvs
    by (vm_compute; reflexivity).
  exact (proj1 (proj2 (failed_indexing_loses_the_index
                         Fixtures.providers_without_embeddings 7 Scenario.corpus
                         Scenario.indexed _ Hvs))).
Defined.

Lemma document_count_witness :
  outcome (indexing_pipeline Scenario.providers 7
             [Scenario.paris; Scenario.tokyo; Scenario.paris_again] ∅)
  = Ok (size (list_to_set [1; 2; 1] : gset Z)).
Proof.
  assert (traverse (encode Scenario.providers (model_name emb_func))
            (indextext <$> [Scenario.paris; Scenario.tokyo; Scenario.paris_again])
          = Ok [[1%Q; 0%Q]; [0%Q; 1%Q]; [0%Q; 0%Q]]) as Hvs
    by (vm_compute; reflexivity).
  exact (proj1 (document_count_is_the_number_of_ids Scenario.providers 7
                  [Scenario.paris; Scenario.tokyo; Scenario.paris_again] ∅ _ Hvs)).
Defined.

Lemma sample_document_witness :
  ∃ d, sample_document 7 1 Fixtures.zero_based
         (cluster_of (index_documents Scenario.providers 7 Fixtures.zero_based ∅))
       = Ok d.
Proof.
  assert (traverse (encode Scenario.providers (model_name emb_func))
            (indextext <$> Fixtures.zero_based)
          = Ok [[1%Q; 0%Q]; [0%Q; 1%Q]]) as Hvs by (vm_compute; reflexivity).
  apply (proj2 (sample_document_found_iff Scenario.providers 7 1 Fixtures.zero_based
                  ∅ _ Hvs)); [done|].
  exists {| id := 1; title := "B"; text := "Tokyo is the capital of Japan." |}.
  split; [|by vm_compute]. apply elem_of_cons. right. apply elem_of_cons. by left.
Defined.

(* ===================================================================== *)
(** ** Cells 53 and 55: asking the questions, printing the answers        *)
(* ===================================================================== *)

Section QuestionFacts.
Context (ext : Externals).

Lemma for_each_run_chain_cluster chain qs (es : Cluster) :
  cluster_of (for_each (run_chain ext chain) qs es) = es.
Proof.
  induction qs as [|q qs IH]; [done|].
  cbn [for_each]. unfold bind at 1.
  pose proof (run_chain_cluster ext chain q es) as Hq.
  destruct (run_chain ext chain q es) as [[[r|detail] es1] t1];
    unfold cluster_of in Hq; simpl in Hq; subst es1; [|done].
  unfold bind, ret. unfold cluster_of in IH.
  destruct (for_each (run_chain ext chain) qs es) as [[[rs|detail] es2] t2];
    simpl in *; by subst.
Qed.

(** When the loop of cell 53 ends, its i-th result is what the chain gives
    for the i-th question, asked of the cluster the loop started with. *)
Lemma for_each_run_chain_Ok chain qs (es : Cluster) results :
  outcome (for_each (run_chain ext chain) qs es) = Ok results →
  Forall2 (λ q r, outcome (run_chain ext chain q es) = Ok r) qs results.
Proof.
  revert results. induction qs as [|q qs IH]; intros results.
  - intros [= <-]. constructor.
  - cbn [for_each]. unfold bind at 1.
    pose proof (run_chain_cluster ext chain q es) as Hq.
    destruct (run_chain ext chain q es) as [[[r|detail] es1] t1] eqn:Hrun;
      unfold cluster_of in Hq; simpl in Hq; subst es1; [|done].
    unfold bind, ret.
    destruct (for_each (run_chain ext chain) qs es) as [[[rs|detail] es2] t2] eqn:Hrest;
      [|done].
    intros [= <-].
    constructor; [by rewrite Hrun|]. exact (IH rs eq_refl).
Qed.

Lemma run_chain_query chain q (es : Cluster) r :
  outcome (run_chain ext chain q es) = Ok r → query r = q.
Proof. by intros (idx & qv & a & _ & _ & _ & ->)%run_chain_Ok. Qed.

(** X10.  When the loop of cell 53 ends without an exception there is one
    result per question, in the order of the questions; each carries its
    question, and is what the chain answers to that question alone: no
    question changes the answer to another. *)
Theorem answers_follow_the_questions chain qs (es : Cluster) results :
  outcome (for_each (run_chain ext chain) qs es) = Ok results →
  length results = length qs
  ∧ query <$> results = qs
  ∧ ∀ i q r, qs !! i = Some q → results !! i = Some r →
             outcome (run_chain ext chain q es) = Ok r.
Proof.
  intros Hall%for_each_run_chain_Ok.
  split; [symmetry; by eapply Forall2_length|]. split.
  - induction Hall as [|q r qs rs Hq _ IH]; [done|].
    rewrite fmap_cons, IH. f_equal. by eapply run_chain_query.
  - intros i q r Hq Hr. exact (Forall2_lookup_lr _ _ _ i q r Hall Hq Hr).
Qed.

(** X11.  Asking questions never writes to the cluster: after the loop of
    cell 53, and after any single call of the chain, every index holds what
    it held before, whether the calls succeed or raise. *)
Theorem answering_never_writes chain qs q (es : Cluster) :
  cluster_of (for_each (run_chain ext chain) qs es) = es
  ∧ cluster_of (run_chain ext chain q es) = es
  ∧ outcome (count (index_name (vectorstore (retriever chain)))
               (cluster_of (for_each (run_chain ext chain) qs es)))
    = outcome (count (index_name (vectorstore (retriever chain))) es).
Proof.
  split; [apply for_each_run_chain_cluster|]. split; [apply run_chain_cluster|].
  by rewrite for_each_run_chain_cluster.
Qed.

Lemma getitem_key d key : key ∈ keys d → ∃ v, getitem d key = Ok v.
Proof.
  unfold keys. induction d as [|[k v] d IH]; simpl; [by intros ?%elem_of_nil|].
  destruct (String.eqb_spec k key) as [->|Hne]; [by eexists|].
  intros [?|Hin]%elem_of_cons; [done|]. by apply IH.
Qed.

Lemma report_known_queries d results :
  Forall (λ r, query r ∈ keys d) results → (report d results).1 = Ok tt.
Proof.
  induction 1 as [|r rs Hr _ IH]; [done|].
  cbn [report]. unfold report_result.
  destruct (getitem_key d (query r) Hr) as [v ->].
  destruct (report d rs) as [status out]. simpl in *. by subst.
Qed.

(** X12.  The loop of cell 55 looks every result up in the dictionary of
    cell 50 under the query the result carries.  For the results of cell 53,
    asked from the keys of that dictionary, no lookup raises KeyError. *)
Theorem report_finds_every_question chain d (es : Cluster) results :
  outcome (for_each (run_chain ext chain) (keys d) es) = Ok results →
  (report d results).1 = Ok tt.
Proof.
  intros Hall%for_each_run_chain_Ok. apply report_known_queries.
  induction Hall as [|q r qs rs Hq _ IH]; constructor.
  - apply run_chain_query in Hq as ->. by left.
  - eapply Forall_impl; [exact IH|]. intros r' Hr'. simpl. by right.
Qed.

End QuestionFacts.

Lemma answers_follow_the_questions_witness :
  ∃ results,
    outcome (for_each (run_chain Scenario.providers (qa Scenario.providers 7))
               (keys questions_and_answers) Scenario.indexed) = Ok results
    ∧ query <$> results = keys questions_and_answers.
Proof.
  assert (∃ results,
            outcome (for_each (run_chain Scenario.providers (qa Scenario.providers 7))
                       (keys questions_and_answers) Scenario.indexed) = Ok results)
    as [results Hresults] by (eexists; vm_compute; reflexivity).
  exists results. split; [exact Hresults|].
  exact (proj1 (proj2 (answers_follow_the_questions Scenario.providers _ _ _ _ Hresults))).
Defined.

Lemma report_finds_every_question_witness :
  ∃ results,
    outcome (for_each (run_chain Scenario.providers (qa Scenario.providers 7))
               (keys questions_and_answers) Scenario.indexed) = Ok results
    ∧ (report questions_and_answers results).1 = Ok tt.
Proof.
  assert (∃ results,
            outcome (for_each (run_chain Scenario.providers (qa Scenario.providers 7))
                       (keys questions_and_answers) Scenario.indexed) = Ok results)
    as [results Hresults] by (eexists; vm_compute; reflexivity).
  exists results. split; [exact Hresults|].
  exact (report_finds_every_question Scenario.providers _ _ _ _ Hresults).
Defined.

(* ===================================================================== *)
(** ** The pipeline end to end: where the sources come from               *)
(* ===================================================================== *)

Lemma size_foldl_upsert_le (idx : Index) requests :
  (size (foldl upsert idx requests) ≤ size idx + length requests)%nat.
Proof.
  revert idx. induction requests as [|[k d] rs IH]; intros idx; simpl; [lia|].
  etrans; [apply IH|]. unfold upsert. simpl. rewrite map_size_insert.
  destruct (idx !! k); simpl; lia.
Qed.

Lemma knn_ids_NoDup (idx : Index) qv k : NoDup (hit_id <$> knn idx qv k).
Proof.
  unfold knn. rewrite fmap_take.
  eapply sublist_NoDup; [|apply sublist_take].
  rewrite rank_perm, <-list_fmap_compose.
  apply NoDup_fst_map_to_list.
Qed.

Lemma knn_length_index (idx : Index) qv k : (length (knn idx qv k) ≤ size idx)%nat.
Proof.
  unfold knn. rewrite length_take, rank_perm, length_fmap, length_map_to_list. lia.
Qed.

Section EndToEnd.
Context (ext : Externals).

(** X13.  Asked of the index cell 40 has just built, the chain cites only
    passages of the corpus: every source document is the text
    [title + "\n" + text] of a passage with that passage's title and id as
    metadata; no passage id is cited twice; and there are at most as many
    sources as the retriever asks for, and at most as many as the corpus has
    passages. *)
Theorem sources_come_from_the_corpus draw documents q (es : Cluster) vs resp :
  traverse (encode ext (model_name emb_func)) (indextext <$> documents) = Ok vs →
  outcome (run_chain ext (qa ext draw) q
             (cluster_of (index_documents ext draw documents es))) = Ok resp →
  Forall (λ d, ∃ p, p ∈ documents
                    ∧ page_content d = title p +:+ newline +:+ text p
                    ∧ metadata d = {| meta_title := title p; meta_id := id p |})
         (source_documents resp)
  ∧ NoDup (meta_id ∘ metadata <$> source_documents resp)
  ∧ (length (source_documents resp) ≤ default_k ext)%nat
  ∧ (length (source_documents resp) ≤ length documents)%nat.
Proof.
  intros Hvs (idx & qv & a & Hidx & _ & _ & ->)%run_chain_Ok.
  pose proof (traverse_length _ _ _ Hvs) as Hlen. rewrite length_fmap in Hlen.
  rewrite (index_documents_run ext draw documents es vs Hvs) in Hidx.
  unfold cluster_of in Hidx.
  cbn [fst snd qa retriever as_retriever vectorstore knowledge_base index_name] in Hidx.
  rewrite lookup_insert_eq in Hidx. injection Hidx as <-.
  cbn [source_documents qa return_source_documents retriever as_retriever search_k].
  set (idx := foldl upsert ∅ (zip_with indexed_document documents vs)).
  assert (Forall (λ h, ∃ p, p ∈ documents
                    ∧ hit_id h = str (id p)
                    ∧ es_text (hit_source h) = title p +:+ newline +:+ text p
                    ∧ es_metadata (hit_source h)
                      = {| meta_title := title p; meta_id := id p |})
                 (knn idx qv (default_k ext))) as Hhits.
  { eapply Forall_impl; [apply knn_hits|]. intros h [Hh _].
    apply lookup_foldl_upsert_Some in Hh as [Hin|Hempty];
      [|by rewrite lookup_empty in Hempty].
    apply elem_of_lookup_zip_with_1 in Hin as (i & p & v & Heq & Hp & _).
    injection Heq as -> ->. exists p.
    split; [by eapply list_elem_of_lookup_2|done]. }
  split; [|split; [|split]].
  - apply Forall_fmap. eapply Forall_impl; [exact Hhits|].
    intros h (p & Hp & _ & Htext & Hmeta). exists p. simpl. by rewrite Htext, Hmeta.
  - rewrite <-list_fmap_compose.
    apply (NoDup_fmap_1 str). rewrite <-list_fmap_compose.
    assert ((str ∘ (meta_id ∘ metadata ∘ document_of_hit)) <$> knn idx qv (default_k ext)
            = hit_id <$> knn idx qv (default_k ext)) as ->; [|apply knn_ids_NoDup].
    apply list_eq_Forall2, Forall2_fmap, Forall_Forall2_diag.
    eapply Forall_impl; [exact Hhits|].
    intros h (p & _ & Hid & _ & Hmeta). simpl. by rewrite Hmeta, Hid.
  - rewrite length_fmap. apply knn_length.
  - rewrite length_fmap. etrans; [apply knn_length_index|].
    etrans; [apply size_foldl_upsert_le|].
    rewrite map_size_empty, length_zip_with. lia.
Qed.

End EndToEnd.

Lemma sources_come_from_the_corpus_witness :
  ∃ resp,
    outcome (run_chain Scenario.providers (qa Scenario.providers 7) Scenario.question
               (cluster_of (index_documents Scenario.providers 7 Scenario.corpus ∅)))
    = Ok resp
    ∧ (length (source_documents resp) ≤ length Scenario.corpus)%nat.
Proof.
  assert (traverse (encode Scenario.providers (model_name emb_func))
            (indextext <$> Scenario.corpus)
          = Ok [[1%Q; 0%Q]; [0%Q; 1%Q]]) as Hvs by (vm_compute; reflexivity).
  assert (∃ resp,
            outcome (run_chain Scenario.providers (qa Scenario.providers 7)
                       Scenario.question
                       (cluster_of (index_documents Scenario.providers 7
                                      Scenario.corpus ∅))) = Ok resp)
    as [resp Hresp] by (eexists; vm_compute; reflexivity).
  exists resp. split; [exact Hresp|].
  exact (proj2 (proj2 (proj2
    (sources_come_from_the_corpus Scenario.providers 7 Scenario.corpus
       Scenario.question ∅ _ resp Hvs Hresp)))).
Defined.

(* ===================================================================== *)
(** ** The request schema                                                 *)
(* ===================================================================== *)

Lemma json_get_other key k v fields1 fields2 :
  k ≠ key →
  json_get key (fields1 ++ (k, v) :: fields2) = json_get key (fields1 ++ fields2).
Proof.
  intros Hne. induction fields1 as [|[k' v'] fields1 IH]; simpl.
  - by destruct (String.eqb_spec k key).
  - by destruct (String.eqb k' key).
Qed.

(** X14.  The schema [QueryRequest] lists no property but [query] and does
    not forbid others: a property of another name, wherever it stands in the
    body and whatever its value, changes neither whether the body satisfies
    the schema nor the query read from it. *)
Theorem QueryRequest_ignores_other_properties k v fields1 fields2 :
  k ≠ "query" →
  validate Schemas.QueryRequest (JObj (fields1 ++ (k, v) :: fields2))
  = validate Schemas.QueryRequest (JObj (fields1 ++ fields2))
  ∧ query_of (JObj (fields1 ++ (k, v) :: fields2)) = query_of (JObj (fields1 ++ fields2)).
Proof.
  intros Hne. unfold query_of. simpl.
  by rewrite (json_get_other "query" k v fields1 fields2 Hne).
Qed.

Lemma QueryRequest_ignores_other_properties_witness :
  validate Schemas.QueryRequest
    (JObj ([("query", JStr "who?")] ++ ("k", JInt 3) :: [("stream", JBool true)]))
  = validate Schemas.QueryRequest (JObj ([("query", JStr "who?")] ++ [("stream", JBool true)])).
Proof.
  apply (QueryRequest_ignores_other_properties "k" (JInt 3)
           [("query", JStr "who?")] [("stream", JBool true)]).
  discriminate.
Defined.
